(** * AVRA device table and predefined device symbols (src/device.c)

    A shallow embedding of [device.c]: the device table [device_list], the
    selection state [LastDevice], the lookup [get_device] and the routine
    [predef_dev] that defines (pass 1) or re-checks (pass 2) one constant
    per known device.

    The symbol table operations ([def_var], [def_const], [test_constant],
    [get_constant]), the comparison [nocase_strcmp] and the declarations of
    [struct device], [struct prog_info] and the [DF_*] flags live in other
    files of the assembler; they are modelled here from their documented
    interface.  A result of [None] stands for a run that leaves defined C
    behaviour (a read past the device table, a write past the end of the
    name buffer). *)

From Stdlib Require Import ZArith Lia Ascii String.
From stdpp Require Import base option list strings gmap.

Local Open Scope string_scope.
Local Open Scope nat_scope.

(** ** Data model *)

(** The capability flags OR-ed into [.flag]; their numeric values are given
    in device.h and play no role in this file, so a flag word is kept as the
    list of the flags that the initialiser ORs together. *)
Inductive dflag : Set :=
  | DF_NO_MUL | DF_NO_JMP | DF_NO_XREG | DF_NO_YREG | DF_TINY1X
  | DF_NO_LPM | DF_NO_LPM_X | DF_NO_ELPM | DF_NO_ELPM_X | DF_NO_SPM
  | DF_NO_ESPM | DF_NO_MOVW | DF_NO_BREAK | DF_NO_EICALL | DF_NO_EIJMP
  | DF_AVR8L.

(** [struct device], with the fields of the initialisers of [device_list];
    a [NULL] name is [None].  The sizes are integers of the width device.h
    gives them (the listing prints them as [long]); they are kept as [Z],
    and [device_list_sizes_int] shows that those of the table are below
    2^31, so that handing them to [def_var] loses nothing. *)
Record device : Set := dev {
  name : option string;
  flash_size : Z;
  ram_start : Z;
  ram_size : Z;
  eeprom_size : Z;
  flag : list dflag
}.

Definition DEV_VAR : string := "__DEVICE__".
Definition FLASH_VAR : string := "__FLASH_SIZE__".
Definition EEPROM_VAR : string := "__EEPROM_SIZE__".
Definition RAM_VAR : string := "__RAM_SIZE__".
Definition DEV_PREFIX : string := "__".
Definition DEV_SUFFIX : string := "__".
Definition DEF_DEV_NAME : string := "DEFAULT".
Definition MAX_DEV_NAME : nat := 32.

(** The table of device.c, lines 54-160, entry by entry (sizes in decimal). *)
Definition device_list : list device := [
    dev (None) 4194304 96 8388608 65536
      [];
    dev (Some "ATtiny4") 256 64 32 0
      [DF_NO_MUL; DF_NO_JMP; DF_NO_LPM; DF_NO_ELPM; DF_NO_SPM; DF_NO_ESPM; DF_NO_MOVW; DF_NO_BREAK; DF_NO_EICALL; DF_NO_EIJMP; DF_AVR8L];
    dev (Some "ATtiny5") 256 64 32 0
      [DF_NO_MUL; DF_NO_JMP; DF_NO_LPM; DF_NO_ELPM; DF_NO_SPM; DF_NO_ESPM; DF_NO_MOVW; DF_NO_BREAK; DF_NO_EICALL; DF_NO_EIJMP; DF_AVR8L];
    dev (Some "ATtiny9") 512 64 32 0
      [DF_NO_MUL; DF_NO_JMP; DF_NO_LPM; DF_NO_ELPM; DF_NO_SPM; DF_NO_ESPM; DF_NO_MOVW; DF_NO_BREAK; DF_NO_EICALL; DF_NO_EIJMP; DF_AVR8L];
    dev (Some "ATtiny10") 512 64 32 0
      [DF_NO_MUL; DF_NO_JMP; DF_NO_LPM; DF_NO_ELPM; DF_NO_SPM; DF_NO_ESPM; DF_NO_MOVW; DF_NO_BREAK; DF_NO_EICALL; DF_NO_EIJMP; DF_AVR8L];
    dev (Some "ATtiny11") 512 0 0 0
      [DF_NO_MUL; DF_NO_JMP; DF_TINY1X; DF_NO_XREG; DF_NO_YREG; DF_NO_LPM_X; DF_NO_ELPM; DF_NO_SPM; DF_NO_ESPM; DF_NO_MOVW; DF_NO_BREAK; DF_NO_EICALL; DF_NO_EIJMP];
    dev (Some "ATtiny12") 512 0 0 64
      [DF_NO_MUL; DF_NO_JMP; DF_TINY1X; DF_NO_XREG; DF_NO_YREG; DF_NO_LPM_X; DF_NO_ELPM; DF_NO_SPM; DF_NO_ESPM; DF_NO_MOVW; DF_NO_BREAK; DF_NO_EICALL; DF_NO_EIJMP];
    dev (Some "ATtiny13") 512 96 64 64
      [DF_NO_MUL; DF_NO_JMP; DF_NO_ELPM; DF_NO_ESPM; DF_NO_EICALL; DF_NO_EIJMP];
    dev (Some "ATtiny13A") 512 96 64 64
      [DF_NO_MUL; DF_NO_JMP; DF_NO_ELPM; DF_NO_ESPM; DF_NO_EICALL; DF_NO_EIJMP];
    dev (Some "ATtiny15") 512 0 0 64
      [DF_NO_MUL; DF_NO_JMP; DF_NO_XREG; DF_NO_YREG; DF_NO_LPM_X; DF_NO_ELPM; DF_NO_SPM; DF_NO_ESPM; DF_NO_MOVW; DF_NO_BREAK; DF_NO_EICALL; DF_NO_EIJMP; DF_TINY1X];
    dev (Some "ATtiny20") 1024 64 128 0
      [DF_NO_MUL; DF_NO_JMP; DF_NO_EIJMP; DF_NO_EICALL; DF_NO_MOVW; DF_NO_LPM; DF_NO_ELPM; DF_NO_SPM; DF_NO_ESPM; DF_NO_BREAK; DF_AVR8L];
    dev (Some "ATtiny22") 1024 96 128 128
      [DF_NO_MUL; DF_NO_JMP; DF_NO_LPM_X; DF_NO_ELPM; DF_NO_SPM; DF_NO_ESPM; DF_NO_MOVW; DF_NO_BREAK; DF_NO_EICALL; DF_NO_EIJMP];
    dev (Some "ATtiny24") 1024 96 128 128
      [DF_NO_MUL; DF_NO_JMP; DF_NO_ELPM; DF_NO_ESPM; DF_NO_EICALL; DF_NO_EIJMP];
    dev (Some "ATtiny24A") 1024 96 128 128
      [DF_NO_MUL; DF_NO_JMP; DF_NO_ELPM; DF_NO_ESPM; DF_NO_EICALL; DF_NO_EIJMP];
    dev (Some "ATtiny25") 1024 96 128 128
      [DF_NO_MUL; DF_NO_JMP; DF_NO_ELPM; DF_NO_ESPM; DF_NO_EICALL; DF_NO_EIJMP];
    dev (Some "ATtiny26") 1024 96 128 128
      [DF_NO_MUL; DF_NO_JMP; DF_NO_ELPM; DF_NO_SPM; DF_NO_ESPM; DF_NO_MOVW; DF_NO_BREAK; DF_NO_EICALL; DF_NO_EIJMP];
    dev (Some "ATtiny28") 1024 0 0 0
      [DF_NO_MUL; DF_NO_JMP; DF_TINY1X; DF_NO_XREG; DF_NO_YREG; DF_NO_LPM_X; DF_NO_ELPM; DF_NO_SPM; DF_NO_ESPM; DF_NO_MOVW; DF_NO_BREAK; DF_NO_EICALL; DF_NO_EIJMP];
    dev (Some "ATtiny44") 2048 96 256 256
      [DF_NO_MUL; DF_NO_JMP; DF_NO_ELPM; DF_NO_ESPM; DF_NO_EICALL; DF_NO_EIJMP];
    dev (Some "ATtiny44A") 2048 96 256 256
      [DF_NO_MUL; DF_NO_JMP; DF_NO_ELPM; DF_NO_ESPM; DF_NO_EICALL; DF_NO_EIJMP];
    dev (Some "ATtiny45") 2048 96 256 256
      [DF_NO_MUL; DF_NO_JMP; DF_NO_ELPM; DF_NO_ESPM; DF_NO_EICALL; DF_NO_EIJMP];
    dev (Some "ATtiny48") 2048 256 256 64
      [DF_NO_MUL; DF_NO_JMP; DF_NO_ELPM; DF_NO_ESPM; DF_NO_EICALL; DF_NO_EIJMP];
    dev (Some "ATtiny84") 4096 96 512 512
      [DF_NO_MUL; DF_NO_JMP; DF_NO_ELPM; DF_NO_ESPM; DF_NO_EICALL; DF_NO_EIJMP];
    dev (Some "ATtiny85") 4096 96 512 512
      [DF_NO_MUL; DF_NO_JMP; DF_NO_ELPM; DF_NO_ESPM; DF_NO_EICALL; DF_NO_EIJMP];
    dev (Some "ATtiny88") 4096 256 512 64
      [DF_NO_MUL; DF_NO_JMP; DF_NO_ELPM; DF_NO_ESPM; DF_NO_EICALL; DF_NO_EIJMP];
    dev (Some "ATtiny261A") 1024 96 128 128
      [DF_NO_MUL; DF_NO_JMP; DF_NO_ELPM; DF_NO_ESPM; DF_NO_EICALL; DF_NO_EIJMP];
    dev (Some "ATtiny461A") 2048 96 256 256
      [DF_NO_MUL; DF_NO_JMP; DF_NO_ELPM; DF_NO_ESPM; DF_NO_EICALL; DF_NO_EIJMP];
    dev (Some "ATtiny861A") 4096 96 512 512
      [DF_NO_MUL; DF_NO_JMP; DF_NO_ELPM; DF_NO_ESPM; DF_NO_EICALL; DF_NO_EIJMP];
    dev (Some "ATtiny2313") 1024 96 128 128
      [DF_NO_MUL; DF_NO_JMP; DF_NO_ELPM; DF_NO_ESPM; DF_NO_EICALL; DF_NO_EIJMP];
    dev (Some "ATtiny2313A") 1024 96 128 128
      [DF_NO_MUL; DF_NO_JMP; DF_NO_ELPM; DF_NO_ESPM; DF_NO_EICALL; DF_NO_EIJMP];
    dev (Some "ATtiny4313") 2048 96 256 256
      [DF_NO_MUL; DF_NO_JMP; DF_NO_ELPM; DF_NO_ESPM; DF_NO_EICALL; DF_NO_EIJMP];
    dev (Some "AT90S1200") 512 0 0 64
      [DF_NO_MUL; DF_NO_JMP; DF_TINY1X; DF_NO_XREG; DF_NO_YREG; DF_NO_LPM; DF_NO_ELPM; DF_NO_SPM; DF_NO_ESPM; DF_NO_MOVW; DF_NO_BREAK; DF_NO_EICALL; DF_NO_EIJMP];
    dev (Some "AT90S2313") 1024 96 128 128
      [DF_NO_MUL; DF_NO_JMP; DF_NO_LPM_X; DF_NO_ELPM; DF_NO_SPM; DF_NO_ESPM; DF_NO_MOVW; DF_NO_BREAK; DF_NO_EICALL; DF_NO_EIJMP];
    dev (Some "AT90S2323") 1024 96 128 128
      [DF_NO_MUL; DF_NO_JMP; DF_NO_LPM_X; DF_NO_ELPM; DF_NO_SPM; DF_NO_ESPM; DF_NO_MOVW; DF_NO_BREAK; DF_NO_EICALL; DF_NO_EIJMP];
    dev (Some "AT90S2333") 1024 96 128 128
      [DF_NO_MUL; DF_NO_JMP; DF_NO_LPM_X; DF_NO_ELPM; DF_NO_SPM; DF_NO_ESPM; DF_NO_MOVW; DF_NO_BREAK; DF_NO_EICALL; DF_NO_EIJMP];
    dev (Some "AT90S2343") 1024 96 128 128
      [DF_NO_MUL; DF_NO_JMP; DF_NO_LPM_X; DF_NO_ELPM; DF_NO_SPM; DF_NO_ESPM; DF_NO_MOVW; DF_NO_BREAK; DF_NO_EICALL; DF_NO_EIJMP];
    dev (Some "AT90S4414") 2048 96 256 256
      [DF_NO_MUL; DF_NO_JMP; DF_NO_LPM_X; DF_NO_ELPM; DF_NO_SPM; DF_NO_ESPM; DF_NO_MOVW; DF_NO_BREAK; DF_NO_EICALL; DF_NO_EIJMP];
    dev (Some "AT90S4433") 2048 96 128 256
      [DF_NO_MUL; DF_NO_JMP; DF_NO_LPM_X; DF_NO_ELPM; DF_NO_SPM; DF_NO_ESPM; DF_NO_MOVW; DF_NO_BREAK; DF_NO_EICALL; DF_NO_EIJMP];
    dev (Some "AT90S4434") 2048 96 256 256
      [DF_NO_MUL; DF_NO_JMP; DF_NO_LPM_X; DF_NO_ELPM; DF_NO_SPM; DF_NO_ESPM; DF_NO_MOVW; DF_NO_BREAK; DF_NO_EICALL; DF_NO_EIJMP];
    dev (Some "AT90S8515") 4096 96 512 512
      [DF_NO_MUL; DF_NO_JMP; DF_NO_LPM_X; DF_NO_ELPM; DF_NO_SPM; DF_NO_ESPM; DF_NO_MOVW; DF_NO_BREAK; DF_NO_EICALL; DF_NO_EIJMP];
    dev (Some "AT90C8534") 4096 96 256 512
      [DF_NO_MUL; DF_NO_JMP; DF_NO_LPM_X; DF_NO_ELPM; DF_NO_SPM; DF_NO_ESPM; DF_NO_MOVW; DF_NO_BREAK; DF_NO_EICALL; DF_NO_EIJMP];
    dev (Some "AT90S8535") 4096 96 512 512
      [DF_NO_MUL; DF_NO_JMP; DF_NO_LPM_X; DF_NO_ELPM; DF_NO_SPM; DF_NO_ESPM; DF_NO_MOVW; DF_NO_BREAK; DF_NO_EICALL; DF_NO_EIJMP];
    dev (Some "ATmega8") 4096 96 1024 512
      [DF_NO_JMP; DF_NO_EICALL; DF_NO_EIJMP; DF_NO_ELPM; DF_NO_ESPM];
    dev (Some "ATmega8A") 4096 96 1024 512
      [DF_NO_JMP; DF_NO_EICALL; DF_NO_EIJMP; DF_NO_ELPM; DF_NO_ESPM];
    dev (Some "ATmega161") 8192 96 1024 512
      [DF_NO_EICALL; DF_NO_EIJMP; DF_NO_ELPM; DF_NO_ESPM];
    dev (Some "ATmega162") 8192 256 1024 512
      [DF_NO_EICALL; DF_NO_EIJMP; DF_NO_ELPM; DF_NO_ESPM];
    dev (Some "ATmega163") 8192 96 1024 512
      [DF_NO_EICALL; DF_NO_EIJMP; DF_NO_ELPM; DF_NO_ESPM];
    dev (Some "ATmega16") 8192 96 1024 512
      [DF_NO_EICALL; DF_NO_EIJMP; DF_NO_ELPM; DF_NO_ESPM];
    dev (Some "ATmega323") 16384 96 2048 1024
      [DF_NO_EICALL; DF_NO_EIJMP; DF_NO_ELPM; DF_NO_ESPM];
    dev (Some "ATmega32") 16384 96 2048 1024
      [DF_NO_EICALL; DF_NO_EIJMP; DF_NO_ELPM; DF_NO_ESPM];
    dev (Some "ATmega603") 32768 96 4096 2048
      [DF_NO_EICALL; DF_NO_EIJMP; DF_NO_MUL; DF_NO_MOVW; DF_NO_LPM_X; DF_NO_ELPM; DF_NO_SPM; DF_NO_ESPM; DF_NO_BREAK];
    dev (Some "ATmega103") 65536 96 4096 4096
      [DF_NO_EICALL; DF_NO_EIJMP; DF_NO_MUL; DF_NO_MOVW; DF_NO_LPM_X; DF_NO_ELPM_X; DF_NO_SPM; DF_NO_ESPM; DF_NO_BREAK];
    dev (Some "ATmega104") 65536 96 4096 4096
      [DF_NO_EICALL; DF_NO_EIJMP; DF_NO_ESPM];
    dev (Some "ATmega128") 65536 256 4096 4096
      [DF_NO_EICALL; DF_NO_EIJMP; DF_NO_ESPM];
    dev (Some "ATmega128A") 65536 256 4096 4096
      [DF_NO_EICALL; DF_NO_EIJMP; DF_NO_ESPM];
    dev (Some "ATmega48") 2048 256 512 256
      [DF_NO_EICALL; DF_NO_EIJMP; DF_NO_ELPM; DF_NO_ESPM];
    dev (Some "ATmega48A") 2048 256 512 256
      [DF_NO_EICALL; DF_NO_EIJMP; DF_NO_ELPM; DF_NO_ESPM];
    dev (Some "ATmega48P") 2048 256 512 256
      [DF_NO_EICALL; DF_NO_EIJMP; DF_NO_ELPM; DF_NO_ESPM];
    dev (Some "ATmega48PA") 2048 256 512 256
      [DF_NO_EICALL; DF_NO_EIJMP; DF_NO_ELPM; DF_NO_ESPM];
    dev (Some "ATmega88") 4096 256 1024 512
      [DF_NO_EICALL; DF_NO_EIJMP; DF_NO_ELPM; DF_NO_ESPM];
    dev (Some "ATmega88A") 4096 256 1024 512
      [DF_NO_EICALL; DF_NO_EIJMP; DF_NO_ELPM; DF_NO_ESPM];
    dev (Some "ATmega88P") 4096 256 1024 512
      [DF_NO_EICALL; DF_NO_EIJMP; DF_NO_ELPM; DF_NO_ESPM];
    dev (Some "ATmega88PA") 4096 256 1024 512
      [DF_NO_EICALL; DF_NO_EIJMP; DF_NO_ELPM; DF_NO_ESPM];
    dev (Some "ATmega168") 8192 256 1024 512
      [DF_NO_EICALL; DF_NO_EIJMP; DF_NO_ELPM; DF_NO_ESPM];
    dev (Some "ATmega168A") 8192 256 1024 512
      [DF_NO_EICALL; DF_NO_EIJMP; DF_NO_ELPM; DF_NO_ESPM];
    dev (Some "ATmega168P") 8192 256 1024 512
      [DF_NO_EICALL; DF_NO_EIJMP; DF_NO_ELPM; DF_NO_ESPM];
    dev (Some "ATmega168PA") 8192 256 1024 512
      [DF_NO_EICALL; DF_NO_EIJMP; DF_NO_ELPM; DF_NO_ESPM];
    dev (Some "ATmega169") 8192 256 1024 512
      [DF_NO_EICALL; DF_NO_EIJMP; DF_NO_ELPM; DF_NO_ESPM];
    dev (Some "ATmega169A") 8192 256 1024 512
      [DF_NO_EICALL; DF_NO_EIJMP; DF_NO_ELPM; DF_NO_ESPM];
    dev (Some "ATmega169P") 8192 256 1024 512
      [DF_NO_EICALL; DF_NO_EIJMP; DF_NO_ELPM; DF_NO_ESPM];
    dev (Some "ATmega169PA") 8192 256 1024 512
      [DF_NO_EICALL; DF_NO_EIJMP; DF_NO_ELPM; DF_NO_ESPM];
    dev (Some "ATmega328") 16384 256 2048 1024
      [DF_NO_EICALL; DF_NO_EIJMP; DF_NO_ELPM; DF_NO_ESPM];
    dev (Some "ATmega328P") 16384 256 2048 1024
      [DF_NO_EICALL; DF_NO_EIJMP; DF_NO_ELPM; DF_NO_ESPM];
    dev (Some "ATmega328PB") 16384 256 2048 1024
      [DF_NO_EICALL; DF_NO_EIJMP; DF_NO_ELPM; DF_NO_ESPM];
    dev (Some "ATmega32U4") 16384 256 2560 1024
      [DF_NO_EICALL; DF_NO_EIJMP; DF_NO_ELPM; DF_NO_ESPM];
    dev (Some "ATmega8515") 8192 96 512 512
      [DF_NO_EICALL; DF_NO_EIJMP; DF_NO_ELPM; DF_NO_ESPM];
    dev (Some "ATmega1280") 65536 512 8192 4096
      [DF_NO_EICALL; DF_NO_EIJMP; DF_NO_ESPM];
    dev (Some "ATmega164P") 8192 256 1024 512
      [DF_NO_EICALL; DF_NO_EIJMP; DF_NO_ELPM; DF_NO_ESPM];
    dev (Some "ATmega164PA") 8192 256 1024 512
      [DF_NO_EICALL; DF_NO_EIJMP; DF_NO_ELPM; DF_NO_ESPM];
    dev (Some "ATmega324A") 16384 256 2048 1024
      [DF_NO_EICALL; DF_NO_EIJMP; DF_NO_ELPM; DF_NO_ESPM];
    dev (Some "ATmega324P") 16384 256 2048 1024
      [DF_NO_EICALL; DF_NO_EIJMP; DF_NO_ELPM; DF_NO_ESPM];
    dev (Some "ATmega324PA") 16384 256 2048 1024
      [DF_NO_EICALL; DF_NO_EIJMP; DF_NO_ELPM; DF_NO_ESPM];
    dev (Some "ATmega644") 32768 256 4096 2048
      [DF_NO_EICALL; DF_NO_EIJMP; DF_NO_ELPM; DF_NO_ESPM];
    dev (Some "ATmega644P") 32768 256 4096 2096
      [DF_NO_EICALL; DF_NO_EIJMP; DF_NO_ELPM; DF_NO_ESPM];
    dev (Some "ATmega644PA") 32768 256 4096 2096
      [DF_NO_EICALL; DF_NO_EIJMP; DF_NO_ELPM; DF_NO_ESPM];
    dev (Some "ATmega1284P") 65536 256 16384 4096
      [DF_NO_EICALL; DF_NO_EIJMP; DF_NO_ESPM];
    dev (Some "ATmega1284PA") 65536 256 16384 4096
      [DF_NO_EICALL; DF_NO_EIJMP; DF_NO_ESPM];
    dev (Some "ATmega2560") 131072 512 8192 4096
      [DF_NO_ESPM];
    dev (Some "ATmega2561") 131072 512 8192 4096
      [DF_NO_ESPM];
    dev (Some "ATmega4809") 24000 10240 6000 256
      [DF_NO_ELPM; DF_NO_ESPM; DF_NO_EICALL; DF_NO_EIJMP];
    dev (Some "AT94K") 8192 96 16384 0
      [DF_NO_ELPM; DF_NO_SPM; DF_NO_ESPM; DF_NO_BREAK; DF_NO_EICALL; DF_NO_EIJMP];
    dev (None) 0 0 0 0
      []
  ].

(** ** C strings in a bounded buffer *)

(** The first [n] characters of [s] (all of [s] when it is shorter). *)
Fixpoint str_take (n : nat) (s : string) : string :=
  match n, s with
  | S n', String c s' => String c (str_take n' s')
  | _, _ => EmptyString
  end.

(** [strncpy(dst, src, n)] into a buffer of [cap] bytes: exactly [n] bytes
    are written ([src] and NUL padding), so [n] must fit; the result is a
    NUL-terminated string only when [src] is shorter than [n]. *)
Definition strncpy (cap : nat) (src : string) (n : nat) : option string :=
  if (n <=? cap) && (String.length src <? n) then Some src else None.

(** [strncat(dst, src, n)] for a buffer of [cap] bytes holding [dst]: at most
    [n] characters of [src] are appended and a NUL is always added, so
    [strlen(dst) + min(n, strlen(src)) + 1] bytes must fit. *)
Definition strncat (cap : nat) (dst src : string) (n : nat) : option string :=
  let r := dst +:+ str_take n src in
  if String.length r + 1 <=? cap then Some r else None.

(** Lines 208-211 of [predef_dev]: the symbol built in
    [char temp[MAX_DEV_NAME+1]] around [base], which is [DEF_DEV_NAME] for
    entry 0 and the device's name otherwise. *)
Definition dev_symbol (base : string) : option string :=
  temp ← strncpy (MAX_DEV_NAME + 1) DEV_PREFIX MAX_DEV_NAME;
  temp ← strncat (MAX_DEV_NAME + 1) temp base MAX_DEV_NAME;
  strncat (MAX_DEV_NAME + 1) temp DEV_SUFFIX MAX_DEV_NAME.

(** The characters the three calls of lines 208-211 copy, without regard
    to where [temp] ends: [strncpy] takes at most [n] characters of its
    source, each [strncat] appends at most [n] characters of its source. *)
Definition strncpy_chars (src : string) (n : nat) : string := str_take n src.
Definition strncat_chars (dst src : string) (n : nat) : string :=
  dst +:+ str_take n src.
Definition dev_symbol_chars (base : string) : string :=
  strncat_chars
    (strncat_chars (strncpy_chars DEV_PREFIX MAX_DEV_NAME) base MAX_DEV_NAME)
    DEV_SUFFIX MAX_DEV_NAME.

(** The naming convention in the specification's words:
    prefix, then the name, then suffix. *)
Definition symbol_spec (base : string) : string :=
  DEV_PREFIX +:+ base +:+ DEV_SUFFIX.

(** ** Case-insensitive comparison *)

Definition tolower (c : ascii) : ascii :=
  let n := nat_of_ascii c in
  if (65 <=? n) && (n <=? 90) then ascii_of_nat (n + 32) else c.

Definition toupper (c : ascii) : ascii :=
  let n := nat_of_ascii c in
  if (97 <=? n) && (n <=? 122) then ascii_of_nat (n - 32) else c.

Fixpoint str_map (f : ascii → ascii) (s : string) : string :=
  match s with
  | EmptyString => EmptyString
  | String c s' => String (f c) (str_map f s')
  end.

Definition lowercase : string → string := str_map tolower.
Definition uppercase : string → string := str_map toupper.

(** Modelled from the spec: [nocase_strcmp] is defined outside device.c.
    The lookup is "case-insensitive": the strings are compared as by
    [strcmp] after folding each character to lower case, and the result is
    0 exactly when they agree. *)
Fixpoint nocase_strcmp (s t : string) : Z :=
  match s, t with
  | EmptyString, EmptyString => 0
  | EmptyString, String d _ => (0 - Z.of_nat (nat_of_ascii (tolower d)))%Z
  | String c _, EmptyString => Z.of_nat (nat_of_ascii (tolower c))
  | String c s', String d t' =>
      if Ascii.eqb (tolower c) (tolower d) then nocase_strcmp s' t'
      else (Z.of_nat (nat_of_ascii (tolower c))
            - Z.of_nat (nat_of_ascii (tolower d)))%Z
  end.

(** ** Assembler session and symbol table *)

(** Modelled from the spec: the values of [pi->pass] are declared in
    avra.h.  [predef_dev] tests for [PASS_1] and takes anything else for
    pass 2; the assembler runs "exactly two" passes. *)
Inductive pass_t : Set := PASS_1 | PASS_2.

(** Modelled from the spec: [struct prog_info] is declared in avra.h.  Of
    the session, device.c reads the pass number and reaches the constants
    and the variables through the four functions below. *)
Record prog_info : Type := mk_prog_info {
  pass : pass_t;
  constants : gmap string Z;
  variables : gmap string Z
}.

(** Modelled from the spec: [def_var] is defined outside device.c.
    "Unconditional define/overwrite, returns nothing". *)
Definition def_var (p : prog_info) (nm : string) (v : Z) : prog_info :=
  mk_prog_info (pass p) (constants p) (<[nm := v]> (variables p)).

(** Modelled from the spec: [test_constant] is defined outside device.c.
    It is the "collision probe" of pass 1, which "must confirm no
    pre-existing constant or variable already uses that exact symbol
    name"; the label found stands for the non-NULL pointer. *)
Definition test_constant (p : prog_info) (nm : string) : option Z :=
  match constants p !! nm with
  | Some v => Some v
  | None => variables p !! nm
  end.

(** Modelled from the spec: [def_const] is defined outside device.c.
    It "fails if a constant or variable of that name already exists" and
    otherwise records the constant. *)
Definition def_const (p : prog_info) (nm : string) (v : Z) : bool * prog_info :=
  match constants p !! nm, variables p !! nm with
  | None, None => (true, mk_prog_info (pass p) (<[nm := v]> (constants p)) (variables p))
  | _, _ => (false, p)
  end.

(** Modelled from the spec: [get_constant] is defined outside device.c.
    It yields "(value, found)": [Some v] is [True] with [*value = v]. *)
Definition get_constant (p : prog_info) (nm : string) : option Z :=
  constants p !! nm.

(** What [predef_dev] prints on stderr: line 215 (the duplicate symbol),
    line 223 (the missing symbol) and line 227 (symbol, pass-1 value [j],
    pass-2 value [i]). *)
Inductive diag : Type :=
  | CantDefineTwice (sym : string)
  | ConstantMissing (sym : string)
  | ConstantChanged (sym : string) (j i : Z).

(** The state device.c works on: the session, the file-level
    [static int LastDevice] and the messages written so far. *)
Record state : Type := mk_state {
  pi : prog_info;
  LastDevice : nat;
  stderr : list diag
}.

Definition set_pi (s : state) (p : prog_info) : state :=
  mk_state p (LastDevice s) (stderr s).
Definition set_LastDevice (s : state) (i : nat) : state :=
  mk_state (pi s) i (stderr s).
Definition fprintf_stderr (s : state) (d : diag) : state :=
  mk_state (pi s) (LastDevice s) (stderr s ++ [d]).
Definition set_pass (s : state) (q : pass_t) : state :=
  set_pi s (mk_prog_info q (constants (pi s)) (variables (pi s))).

(** ** The functions of device.c *)

(** [def_dev]: the four variables of the device in [LastDevice]. *)
Definition def_dev (dl : list device) (s : state) : option state :=
  d ← dl !! LastDevice s;
  let p := def_var (pi s) DEV_VAR (Z.of_nat (LastDevice s)) in
  let p := def_var p FLASH_VAR (flash_size d) in
  let p := def_var p EEPROM_VAR (eeprom_size d) in
  let p := def_var p RAM_VAR (ram_size d) in
  Some (set_pi s p).

(** The [while] loop of [get_device] over the entries from index [i] on;
    [Some (Some i)] is the [break] at entry [i], [Some None] the exit at the
    NULL name, [None] a read past the table. *)
Fixpoint get_device_scan (nm : string) (tbl : list device) (i : nat)
  : option (option nat) :=
  match tbl with
  | [] => None
  | d :: tbl' =>
      match name d with
      | None => Some None
      | Some dn =>
          if (nocase_strcmp nm dn =? 0)%Z then Some (Some i)
          else get_device_scan nm tbl' (S i)
      end
  end.

(** [get_device]; the pointer returned is given by the index it points to,
    [None] being [NULL]. *)
Definition get_device (dl : list device) (s : state) (nm : option string)
  : option (option nat * state) :=
  let s := set_LastDevice s 0 in
  match nm with
  | None => s' ← def_dev dl s; Some (Some 0, s')
  | Some n =>
      result ← get_device_scan n (drop 1 dl) 1;
      let s := match result with
               | Some i => set_LastDevice s i
               | None => s
               end in
      s' ← def_dev dl s; Some (result, s')
  end.

(** One turn of the loop body of [predef_dev] for entry [i] with name
    [base]: the returned flag says whether the loop goes on ([true]) or the
    function returns [False]. *)
Definition predef_body (i : nat) (base : string) (s : state)
  : option (bool * state) :=
  temp ← dev_symbol base;
  match pass (pi s) with
  | PASS_1 =>
      match test_constant (pi s) temp with
      | Some _ => Some (false, fprintf_stderr s (CantDefineTwice temp))
      | None =>
          let '(ok, p) := def_const (pi s) temp (Z.of_nat i) in
          Some (ok, set_pi s p)
      end
  | PASS_2 =>
      match get_constant (pi s) temp with
      | None => Some (false, fprintf_stderr s (ConstantMissing temp))
      | Some j =>
          if (Z.of_nat i =? j)%Z then Some (true, s)
          else Some (false, fprintf_stderr s (ConstantChanged temp j (Z.of_nat i)))
      end
  end.

(** The [for] loop of [predef_dev] from entry [i] on, [tbl] being the table
    from that entry: entry 0 is always processed, under [DEF_DEV_NAME], the
    others as long as their name is not NULL. *)
Fixpoint predef_loop (tbl : list device) (i : nat) (s : state)
  : option (bool * state) :=
  match tbl with
  | [] => None
  | d :: tbl' =>
      match (match i with O => Some DEF_DEV_NAME | S _ => name d end) with
      | None => Some (true, s)
      | Some base =>
          '(ok, s') ← predef_body i base s;
          if ok : bool then predef_loop tbl' (S i) s' else Some (false, s')
      end
  end.

Definition predef_dev (dl : list device) (s : state) : option (bool * state) :=
  s0 ← def_dev dl s;
  predef_loop dl 0 s0.

(** ** Views of the table used in the statements *)

(** The names of the devices from the start of [tbl] up to the first NULL
    name; [None] when [tbl] has no such end mark. *)
Fixpoint names_until_null (tbl : list device) : option (list string) :=
  match tbl with
  | [] => None
  | d :: tbl' =>
      match name d with
      | None => Some []
      | Some n => ns ← names_until_null tbl'; Some (n :: ns)
      end
  end.

(** The named devices of a table: entries 1, 2, ... up to the end mark. *)
Definition device_names (dl : list device) : option (list string) :=
  names_until_null (drop 1 dl).

Definition empty_pi (q : pass_t) : prog_info := mk_prog_info q ∅ ∅.
Definition init_state (q : pass_t) : state := mk_state (empty_pi q) 0 [].

(** The names [predef_dev] goes through, in order: [DEF_DEV_NAME] for entry
    0, then the named devices; position [i] belongs to table entry [i]. *)
Definition predef_names (dl : list device) : option (list string) :=
  ns ← device_names dl; Some (DEF_DEV_NAME :: ns).

(** A name whose symbol fits the buffer: at most [MAX_DEV_NAME] characters
    with prefix and suffix. *)
Definition fits (base : string) : Prop :=
  String.length (symbol_spec base) ≤ MAX_DEV_NAME.

Global Instance fits_dec base : Decision (fits base).
Proof. unfold fits. apply _. Defined.

(** ** Sessions, tables and predicates used in the statements *)

(** The session after the four [def_var] calls of [def_dev] for the device
    [d] at index [i]. *)
Definition dev_vars (p : prog_info) (i : nat) (d : device) : prog_info :=
  def_var (def_var (def_var (def_var p DEV_VAR (Z.of_nat i))
    FLASH_VAR (flash_size d)) EEPROM_VAR (eeprom_size d)) RAM_VAR (ram_size d).

(** The four derived variables hold the index and the sizes of [d]. *)
Definition defines_device_vars (p : prog_info) (i : nat) (d : device) : Prop :=
  variables p !! DEV_VAR = Some (Z.of_nat i) ∧
  variables p !! FLASH_VAR = Some (flash_size d) ∧
  variables p !! EEPROM_VAR = Some (eeprom_size d) ∧
  variables p !! RAM_VAR = Some (ram_size d).

Definition is_device_var (x : string) : Prop :=
  x = DEV_VAR ∨ x = FLASH_VAR ∨ x = EEPROM_VAR ∨ x = RAM_VAR.

(** The loop of [predef_dev] over the names it meets, from index [i] on. *)
Fixpoint predef_run (bases : list string) (i : nat) (s : state)
  : option (bool * state) :=
  match bases with
  | [] => Some (true, s)
  | b :: bs =>
      '(ok, s') ← predef_body i b s;
      if ok : bool then predef_run bs (S i) s' else Some (false, s')
  end.

(** The constants that a successful pass 1 adds for [bases], the first of
    them with value [i]. *)
Fixpoint define_all (bases : list string) (i : nat) (m : gmap string Z)
  : gmap string Z :=
  match bases with
  | [] => m
  | b :: bs => define_all bs (S i) (<[symbol_spec b := Z.of_nat i]> m)
  end.

Definition set_constants (s : state) (m : gmap string Z) : state :=
  set_pi s (mk_prog_info (pass (pi s)) m (variables (pi s))).

(** [nocase_strcmp] tells every two names of [ns] apart, in both orders. *)
Fixpoint nocase_distinct (ns : list string) : bool :=
  match ns with
  | [] => true
  | n :: ns' =>
      forallb (λ m, negb (nocase_strcmp n m =? 0)%Z
                    && negb (nocase_strcmp m n =? 0)%Z) ns'
      && nocase_distinct ns'
  end.

(** The names [predef_dev] meets in [device_list]: ["DEFAULT"], then the 89
    devices. *)
Definition device_list_names : list string :=
  Eval vm_compute in default [] (predef_names device_list).

(** [predef_dev] handles entry [i] of [dl] under the name [b]. *)
Definition device_base (dl : list device) (i : nat) (b : string) : Prop :=
  (i = 0 ∧ b = DEF_DEV_NAME) ∨
  (0 < i ∧ ∃ D, dl !! i = Some D ∧ name D = Some b).

Global Instance is_device_var_dec x : Decision (is_device_var x).
Proof. unfold is_device_var. apply _. Defined.

(** What the statements about pass 1 need of a table: it starts with entry
    0 and ends with a NULL name ([bases] are the names met), every symbol
    fits the buffer, no two entries share a name (nor is one called
    ["DEFAULT"]), and no symbol is one of the four variables of [def_dev]. *)
Record registry_ok (dl : list device) (bases : list string) : Prop := {
  ok_names : predef_names dl = Some bases;
  ok_fits : Forall fits bases;
  ok_nodup : NoDup bases;
  ok_vars : Forall (λ b, ¬ is_device_var (symbol_spec b)) bases
}.


(** Pass 2 with the constant of entry 0 as pass 1 leaves it and that of
    entry 1 at 5. *)
Definition changed_attiny4 : state :=
  mk_state (mk_prog_info PASS_2
              {[ symbol_spec DEF_DEV_NAME := 0%Z;
                 symbol_spec "ATtiny4" := 5%Z ]} ∅) 0 [].

(** Entry 0 of [device_list]. *)
Definition default_device : device := dev None 4194304 96 8388608 65536 [].


(** ** [list_devices] *)

(** What [list_devices] hands to [printf]: the first call prints the header
    and the line of the default device, every further call the line of one
    named device; the fields are the arguments in the order of the format. *)
Inductive printed : Type :=
  | print_default (flash ram_start_ ram eeprom count : Z)
  | print_device (nm : string) (flash ram_start_ ram eeprom count : Z).

(** The [while] loop of [list_devices] over the entries of [tbl];
    [count] stands for [count_supported_instructions], which is defined
    with the instruction table, outside device.c. *)
Fixpoint list_devices_loop (count : list dflag → Z) (tbl : list device)
  : option (list printed) :=
  match tbl with
  | [] => None
  | d :: tbl' =>
      match name d with
      | None => Some []
      | Some n =>
          rows ← list_devices_loop count tbl';
          Some (print_device n (flash_size d) (ram_start d) (ram_size d)
                  (eeprom_size d) (count (flag d)) :: rows)
      end
  end.

Definition list_devices (count : list dflag → Z) (dl : list device)
  : option (list printed) :=
  d0 ← dl !! 0;
  rows ← list_devices_loop count (drop 1 dl);
  Some (print_default (flash_size d0) (ram_start d0) (ram_size d0)
          (eeprom_size d0) (count (flag d0)) :: rows).

(** ** [LIST_APPEND] of misc.h *)

(** The [next] fields of the nodes allocated so far, by node address; a
    pointer is [None] for NULL. *)
Abbreviation next_fields := (gmap nat (option nat)).

(** [LIST_APPEND(node, first_ptr, last_ptr)]: the new [next] fields and the
    new values of the two pointer variables. *)
Definition LIST_APPEND (h : next_fields) (node : nat)
    (first_ptr last_ptr : option nat)
  : next_fields * option nat * option nat :=
  let h := <[node := None]> h in
  match last_ptr with
  | Some l => (<[l := Some node]> h, first_ptr, Some node)
  | None => (h, Some node, Some node)
  end.

(** Following [next] from [p] visits exactly the nodes [xs] and ends at
    NULL. *)
Fixpoint is_list (h : next_fields) (p : option nat) (xs : list nat) : Prop :=
  match xs with
  | [] => p = None
  | a :: xs' => p = Some a ∧ ∃ nxt, h !! a = Some nxt ∧ is_list h nxt xs'
  end.

(** The table of the end-to-end scenario, and the same with its two
    devices exchanged. *)
Definition scenario_table : list device := [
    dev None 4194304 96 8388608 65536 [];
    dev (Some "ATtiny85") 4096 96 512 512 [];
    dev (Some "ATmega328P") 16384 256 2048 1024 [];
    dev None 0 0 0 0 []
  ].
Definition scenario_table_swapped : list device := [
    dev None 4194304 96 8388608 65536 [];
    dev (Some "ATmega328P") 16384 256 2048 1024 [];
    dev (Some "ATtiny85") 4096 96 512 512 [];
    dev None 0 0 0 0 []
  ].

(** Sessions and nodes of the statements at concrete inputs. *)
Definition attiny85 : device := dev (Some "ATtiny85") 4096 96 512 512 [].
Definition scenario_names : list string :=
  [DEF_DEV_NAME; "ATtiny85"; "ATmega328P"].
Definition selected_attiny85 : state :=
  mk_state (dev_vars (empty_pi PASS_1) 1 attiny85) 1 [].
Definition taken_attiny85 : state :=
  mk_state (mk_prog_info PASS_1 {[ symbol_spec "ATtiny85" := 9%Z ]} ∅) 0 [].
Definition two_nodes : next_fields := {[ 1 := Some 2; 2 := None ]}.
Definition checked_scenario : state :=
  mk_state (mk_prog_info PASS_2
              {[ "__DEFAULT__" := 0%Z; "__ATtiny85__" := 1%Z;
                 "__ATmega328P__" := 2%Z ]} ∅) 0 [].

(** * Strings *)

Lemma obind_Some {A B : Type} (x : A) (f : A → option B) : Some x ≫= f = f x.
Proof. reflexivity. Qed.

Lemma str_app_cons (c : ascii) (a s : string) :
  String c a +:+ s = String c (a +:+ s).
Proof. reflexivity. Qed.

Lemma str_length_app (s t : string) :
  String.length (s +:+ t) = String.length s + String.length t.
Proof.
  induction s as [|c s IH]; [done|].
  rewrite str_app_cons. simpl. by rewrite IH.
Qed.

Lemma str_take_all (n : nat) (s : string) :
  String.length s ≤ n → str_take n s = s.
Proof.
  revert n. induction s as [|c s IH]; intros [|n] Hlen; simpl in *; try done.
  - lia.
  - f_equal. apply IH. lia.
Qed.

Lemma str_take_length (n : nat) (s : string) :
  String.length (str_take n s) = n `min` String.length s.
Proof.
  revert s. induction n as [|n IH]; intros [|c s]; simpl; try done.
  by rewrite IH.
Qed.

Lemma str_app_inv_tail (a b s : string) : a +:+ s = b +:+ s → a = b.
Proof.
  revert b. induction a as [|c a IH]; intros [|d b] Heq.
  - done.
  - apply (f_equal String.length) in Heq.
    rewrite !str_length_app in Heq. simpl in Heq. lia.
  - apply (f_equal String.length) in Heq.
    rewrite !str_length_app in Heq. simpl in Heq. lia.
  - rewrite !str_app_cons in Heq. injection Heq as -> Heq.
    f_equal. by apply IH.
Qed.

Lemma symbol_spec_length (base : string) :
  String.length (symbol_spec base) = String.length base + 4.
Proof. unfold symbol_spec. rewrite !str_length_app. simpl. lia. Qed.

Lemma symbol_spec_inj (a b : string) : symbol_spec a = symbol_spec b → a = b.
Proof.
  unfold symbol_spec. intros Heq.
  apply (inj (String.append DEV_PREFIX)) in Heq.
  by apply str_app_inv_tail in Heq.
Qed.

Lemma fits_length (base : string) : fits base ↔ String.length base ≤ 28.
Proof. unfold fits, MAX_DEV_NAME. rewrite symbol_spec_length. lia. Qed.

(** * The symbol built in [temp] *)

Lemma strncat_Some (cap n : nat) (dst src : string) :
  String.length dst + String.length src + 1 ≤ cap →
  String.length src ≤ n →
  strncat cap dst src n = Some (dst +:+ src).
Proof.
  intros Hcap Hn. unfold strncat. rewrite str_take_all by done.
  rewrite str_length_app.
  by destruct (Nat.leb_spec (String.length dst + String.length src + 1) cap);
    [|lia].
Qed.

Lemma strncat_None (cap n : nat) (dst src : string) :
  cap < String.length dst + (n `min` String.length src) + 1 →
  strncat cap dst src n = None.
Proof.
  intros Hcap. unfold strncat. rewrite str_length_app, str_take_length.
  by destruct (Nat.leb_spec
    (String.length dst + (n `min` String.length src) + 1) cap); [lia|].
Qed.

Lemma str_app_assoc (a b c : string) : (a +:+ b) +:+ c = a +:+ b +:+ c.
Proof.
  induction a as [|x a IH]; [done|].
  rewrite !str_app_cons. by rewrite IH.
Qed.

(** The exact behaviour of lines 208-211: the symbol is prefix, name,
    suffix when that has at most 32 characters, and the buffer is overrun
    for every longer name. *)
Lemma dev_symbol_cases (base : string) :
  dev_symbol base =
    if decide (fits base) then Some (symbol_spec base) else None.
Proof.
  unfold dev_symbol.
  change (strncpy (MAX_DEV_NAME + 1) DEV_PREFIX MAX_DEV_NAME)
    with (Some DEV_PREFIX).
  assert (String.length DEV_PREFIX = 2) as Hpre by done.
  assert (String.length DEV_SUFFIX = 2) as Hsuf by done.
  unfold MAX_DEV_NAME. rewrite obind_Some.
  case_decide as Hfit; rewrite fits_length in Hfit.
  - rewrite strncat_Some by lia. rewrite obind_Some.
    rewrite strncat_Some by (rewrite ?str_length_app; lia).
    unfold symbol_spec. by rewrite str_app_assoc.
  - destruct (decide (String.length base ≤ 30)) as [Hle|Hgt].
    + rewrite strncat_Some by lia. rewrite obind_Some.
      apply strncat_None. rewrite str_length_app. lia.
    + by rewrite strncat_None by lia.
Qed.

(** * Case folding *)

Lemma tolower_toupper (c : ascii) : tolower (toupper c) = tolower c.
Proof. by destruct c as [[] [] [] [] [] [] [] []]. Qed.

Lemma tolower_tolower (c : ascii) : tolower (tolower c) = tolower c.
Proof. by destruct c as [[] [] [] [] [] [] [] []]. Qed.

Lemma nocase_strcmp_refl (s : string) : nocase_strcmp s s = 0%Z.
Proof.
  induction s as [|c s IH]; simpl; [done|].
  by rewrite Ascii.eqb_refl.
Qed.

(** Folding the characters of the left argument in a way [tolower] does not
    see leaves the comparison as it is. *)
Lemma nocase_strcmp_map_l (f : ascii → ascii) (s t : string) :
  (∀ c, tolower (f c) = tolower c) →
  nocase_strcmp (str_map f s) t = nocase_strcmp s t.
Proof.
  intros Hf. revert t.
  induction s as [|c s IH]; intros [|d t]; simpl; rewrite ?Hf; try done.
  by rewrite IH.
Qed.

Lemma nocase_strcmp_uppercase (s t : string) :
  nocase_strcmp (uppercase s) t = nocase_strcmp s t.
Proof. apply nocase_strcmp_map_l, tolower_toupper. Qed.

Lemma nocase_strcmp_lowercase (s t : string) :
  nocase_strcmp (lowercase s) t = nocase_strcmp s t.
Proof. apply nocase_strcmp_map_l, tolower_tolower. Qed.

(** * The table seen through its names *)

Lemma names_until_null_lookup (tbl : list device) (ns : list string)
    (k : nat) (n : string) :
  names_until_null tbl = Some ns → ns !! k = Some n →
  ∃ d, tbl !! k = Some d ∧ name d = Some n.
Proof.
  revert ns k. induction tbl as [|d tbl IH]; intros ns k Hns Hk; [done|].
  simpl in Hns. destruct (name d) as [dn|] eqn:Hd.
  - destruct (names_until_null tbl) as [ns'|] eqn:Hns'; [|done].
    simpl in Hns. injection Hns as <-.
    destruct k as [|k]; simpl in Hk.
    + injection Hk as <-. by exists d.
    + by apply (IH ns').
  - injection Hns as <-. done.
Qed.

Lemma device_names_lookup (dl : list device) (ns : list string)
    (k : nat) (n : string) :
  device_names dl = Some ns → ns !! k = Some n →
  ∃ d, dl !! S k = Some d ∧ name d = Some n.
Proof.
  intros Hns Hk.
  destruct (names_until_null_lookup _ _ _ _ Hns Hk) as (d & Hd & Hn).
  exists d. split; [|done]. by rewrite lookup_drop in Hd.
Qed.

(** * [def_dev] *)

Lemma def_dev_eq (dl : list device) (s : state) (d : device) :
  dl !! LastDevice s = Some d →
  def_dev dl s = Some (set_pi s (dev_vars (pi s) (LastDevice s) d)).
Proof. intros Hd. unfold def_dev. by rewrite Hd. Qed.

Lemma dev_vars_defines (p : prog_info) (i : nat) (d : device) :
  defines_device_vars (dev_vars p i d) i d.
Proof.
  unfold defines_device_vars, dev_vars, def_var. simpl.
  repeat split; by simplify_map_eq.
Qed.

Lemma dev_vars_other (p : prog_info) (i : nat) (d : device) (x : string) :
  ¬ is_device_var x → variables (dev_vars p i d) !! x = variables p !! x.
Proof.
  unfold is_device_var. intros Hx. simpl.
  rewrite !lookup_insert_ne; [done|naive_solver..].
Qed.

(** * [get_device] *)

Lemma get_device_scan_none (q : string) (tbl : list device)
    (ns : list string) (i : nat) :
  names_until_null tbl = Some ns →
  Forall (λ dn, nocase_strcmp q dn ≠ 0%Z) ns →
  get_device_scan q tbl i = Some None.
Proof.
  revert ns i. induction tbl as [|d tbl IH]; intros ns i Hns Hall; [done|].
  simpl in *. destruct (name d) as [dn|]; [|done].
  destruct (names_until_null tbl) as [ns'|]; [|done].
  simpl in Hns. injection Hns as <-.
  apply Forall_cons in Hall as [Hdn Hall].
  destruct (Z.eqb_spec (nocase_strcmp q dn) 0) as [?|_]; [done|].
  by apply (IH ns').
Qed.

Lemma get_device_scan_found (q : string) (tbl : list device)
    (ns : list string) (i k : nat) (n : string) :
  names_until_null tbl = Some ns →
  ns !! k = Some n →
  nocase_strcmp q n = 0%Z →
  (∀ j m, j < k → ns !! j = Some m → nocase_strcmp q m ≠ 0%Z) →
  get_device_scan q tbl i = Some (Some (i + k)).
Proof.
  revert ns i k. induction tbl as [|d tbl IH]; intros ns i k Hns Hk Hq Hbefore;
    [done|].
  simpl in *. destruct (name d) as [dn|]; [|by injection Hns as <-].
  destruct (names_until_null tbl) as [ns'|]; [|done].
  simpl in Hns. injection Hns as <-.
  destruct k as [|k]; simpl in Hk.
  - injection Hk as ->. rewrite Hq. simpl. do 2 f_equal. lia.
  - destruct (Z.eqb_spec (nocase_strcmp q dn) 0) as [Heq|_].
    + by destruct (Hbefore 0 dn); [lia|..].
    + rewrite (IH ns' (S i) k); [do 2 f_equal; lia|done..|].
      intros j m Hj Hm. apply (Hbefore (S j) m); [lia|done].
Qed.

(** C4: with a NULL name [get_device] does not look at the table beyond
    entry 0: whatever follows that entry, it sets [LastDevice] to 0, defines
    the four variables from entry 0 and returns a pointer to entry 0. *)
Theorem get_device_null_name (dl : list device) (s : state) (d0 : device) :
  dl !! 0 = Some d0 →
  get_device dl s None
    = Some (Some 0, mk_state (dev_vars (pi s) 0 d0) 0 (stderr s)) ∧
  defines_device_vars (dev_vars (pi s) 0 d0) 0 d0.
Proof.
  intros Hd0. split; [|apply dev_vars_defines].
  unfold get_device. by rewrite (def_dev_eq _ _ d0).
Qed.

(** C3: a name that compares unequal to every named device gives NULL,
    leaves [LastDevice] at 0, and the four variables are still defined, from
    entry 0. *)
Theorem get_device_not_found (dl : list device) (ns : list string)
    (s : state) (d0 : device) (q : string) :
  dl !! 0 = Some d0 →
  device_names dl = Some ns →
  Forall (λ dn, nocase_strcmp q dn ≠ 0%Z) ns →
  get_device dl s (Some q)
    = Some (None, mk_state (dev_vars (pi s) 0 d0) 0 (stderr s)) ∧
  defines_device_vars (dev_vars (pi s) 0 d0) 0 d0.
Proof.
  intros Hd0 Hns Hall. split; [|apply dev_vars_defines].
  unfold get_device. rewrite (get_device_scan_none q _ ns 1 Hns Hall).
  rewrite obind_Some. by rewrite (def_dev_eq _ _ d0).
Qed.

(** C5: in a table whose device names are pairwise different under
    [nocase_strcmp], looking up the name of the device at index [S k], or
    that name in upper or in lower case, returns a pointer to that entry,
    sets [LastDevice] to its index and defines the four variables from it. *)
Theorem get_device_case_insensitive (dl : list device) (ns : list string)
    (s : state) (k : nat) (n q : string) :
  device_names dl = Some ns →
  (∀ i j a b, ns !! i = Some a → ns !! j = Some b → i ≠ j →
     nocase_strcmp a b ≠ 0%Z) →
  ns !! k = Some n →
  q = n ∨ q = uppercase n ∨ q = lowercase n →
  ∃ D, dl !! S k = Some D ∧ name D = Some n ∧
    get_device dl s (Some q)
      = Some (Some (S k), mk_state (dev_vars (pi s) (S k) D) (S k) (stderr s)) ∧
    defines_device_vars (dev_vars (pi s) (S k) D) (S k) D.
Proof.
  intros Hns Hdistinct Hk Hq.
  destruct (device_names_lookup _ _ _ _ Hns Hk) as (D & HD & Hname).
  exists D. split_and!; [done|done| |apply dev_vars_defines].
  assert (∀ m, nocase_strcmp q m = nocase_strcmp n m) as Hcmp.
  { intros m. destruct Hq as [->| [->| ->]];
      [done|apply nocase_strcmp_uppercase|apply nocase_strcmp_lowercase]. }
  unfold get_device.
  rewrite (get_device_scan_found q _ ns 1 k n Hns Hk).
  - rewrite obind_Some. by rewrite (def_dev_eq _ _ D).
  - rewrite Hcmp. apply nocase_strcmp_refl.
  - intros j m Hj Hm. rewrite Hcmp. apply (Hdistinct k j n m); [done..|lia].
Qed.

(** * [predef_dev] on a table given by its names *)

Lemma predef_loop_named (tbl : list device) (ns : list string)
    (i : nat) (s : state) :
  names_until_null tbl = Some ns →
  predef_loop tbl (S i) s = predef_run ns (S i) s.
Proof.
  revert ns i s. induction tbl as [|d tbl IH]; intros ns i s Hns; [done|].
  simpl in *. destruct (name d) as [dn|]; [|by injection Hns as <-].
  destruct (names_until_null tbl) as [ns'|]; [|done].
  simpl in Hns. injection Hns as <-. simpl.
  destruct (predef_body (S i) dn s) as [[[] s']|]; simpl; [|done..].
  by apply IH.
Qed.

Lemma predef_loop_run (dl : list device) (bases : list string) (s : state) :
  predef_names dl = Some bases →
  predef_loop dl 0 s = predef_run bases 0 s.
Proof.
  unfold predef_names, device_names. intros Hb.
  destruct dl as [|d0 tbl]; [done|].
  change (drop 1 (d0 :: tbl)) with tbl in Hb.
  destruct (names_until_null tbl) as [ns|] eqn:Hns; [|done].
  simpl in Hb. injection Hb as <-. simpl.
  destruct (predef_body 0 DEF_DEV_NAME s) as [[[] s']|]; simpl; [|done..].
  by apply predef_loop_named.
Qed.

Lemma predef_dev_run (dl : list device) (bases : list string)
    (s : state) (d : device) :
  predef_names dl = Some bases →
  dl !! LastDevice s = Some d →
  predef_dev dl s
    = predef_run bases 0 (set_pi s (dev_vars (pi s) (LastDevice s) d)).
Proof.
  intros Hb Hd. unfold predef_dev. rewrite (def_dev_eq _ _ d Hd).
  rewrite obind_Some. by apply predef_loop_run.
Qed.

Lemma dev_symbol_fits (b : string) :
  fits b → dev_symbol b = Some (symbol_spec b).
Proof. intros Hb. rewrite dev_symbol_cases. by rewrite decide_True. Qed.

(** ** One turn of the loop *)

Lemma predef_body_duplicate (i : nat) (b : string) (s : state) (v : Z) :
  fits b → pass (pi s) = PASS_1 →
  constants (pi s) !! symbol_spec b = Some v →
  predef_body i b s
    = Some (false, fprintf_stderr s (CantDefineTwice (symbol_spec b))).
Proof.
  intros Hb Hpass Hc. unfold predef_body, test_constant.
  rewrite (dev_symbol_fits b Hb), obind_Some. by rewrite Hpass, Hc.
Qed.

Lemma predef_body_variable (i : nat) (b : string) (s : state) (v : Z) :
  fits b → pass (pi s) = PASS_1 →
  constants (pi s) !! symbol_spec b = None →
  variables (pi s) !! symbol_spec b = Some v →
  predef_body i b s
    = Some (false, fprintf_stderr s (CantDefineTwice (symbol_spec b))).
Proof.
  intros Hb Hpass Hc Hv. unfold predef_body, test_constant.
  rewrite (dev_symbol_fits b Hb), obind_Some. by rewrite Hpass, Hc, Hv.
Qed.

Lemma predef_body_taken (i : nat) (b : string) (s : state) :
  fits b → pass (pi s) = PASS_1 →
  is_Some (constants (pi s) !! symbol_spec b) ∨
  is_Some (variables (pi s) !! symbol_spec b) →
  predef_body i b s
    = Some (false, fprintf_stderr s (CantDefineTwice (symbol_spec b))).
Proof.
  intros Hb Hpass Htaken.
  destruct (constants (pi s) !! symbol_spec b) as [v|] eqn:Hc.
  - by apply (predef_body_duplicate _ _ _ v).
  - destruct Htaken as [[]%is_Some_None|[v Hv]].
    by apply (predef_body_variable _ _ _ v).
Qed.

Lemma predef_body_define (i : nat) (b : string) (s : state) :
  fits b → pass (pi s) = PASS_1 →
  constants (pi s) !! symbol_spec b = None →
  variables (pi s) !! symbol_spec b = None →
  predef_body i b s
    = Some (true, set_constants s
                    (<[symbol_spec b := Z.of_nat i]> (constants (pi s)))).
Proof.
  intros Hb Hpass Hc Hv.
  unfold predef_body, test_constant, def_const, set_constants.
  rewrite (dev_symbol_fits b Hb), obind_Some. by rewrite Hpass, Hc, Hv.
Qed.

Lemma predef_body_missing (i : nat) (b : string) (s : state) :
  fits b → pass (pi s) = PASS_2 →
  constants (pi s) !! symbol_spec b = None →
  predef_body i b s
    = Some (false, fprintf_stderr s (ConstantMissing (symbol_spec b))).
Proof.
  intros Hb Hpass Hc. unfold predef_body, get_constant.
  rewrite (dev_symbol_fits b Hb), obind_Some. by rewrite Hpass, Hc.
Qed.

Lemma predef_body_changed (i : nat) (b : string) (s : state) (j : Z) :
  fits b → pass (pi s) = PASS_2 →
  constants (pi s) !! symbol_spec b = Some j → j ≠ Z.of_nat i →
  predef_body i b s
    = Some (false,
        fprintf_stderr s (ConstantChanged (symbol_spec b) j (Z.of_nat i))).
Proof.
  intros Hb Hpass Hc Hne. unfold predef_body, get_constant.
  rewrite (dev_symbol_fits b Hb), obind_Some. rewrite Hpass, Hc.
  by destruct (Z.eqb_spec (Z.of_nat i) j).
Qed.

Lemma predef_body_unchanged (i : nat) (b : string) (s : state) :
  fits b → pass (pi s) = PASS_2 →
  constants (pi s) !! symbol_spec b = Some (Z.of_nat i) →
  predef_body i b s = Some (true, s).
Proof.
  intros Hb Hpass Hc. unfold predef_body, get_constant.
  rewrite (dev_symbol_fits b Hb), obind_Some. rewrite Hpass, Hc.
  by rewrite Z.eqb_refl.
Qed.

(** Whatever the session holds, a turn for a name that fits comes back. *)
Lemma predef_body_total (i : nat) (b : string) (s : state) :
  fits b → is_Some (predef_body i b s).
Proof.
  intros Hb. unfold predef_body. rewrite (dev_symbol_fits b Hb), obind_Some.
  destruct (pass (pi s)).
  - destruct (test_constant _ _); [done|]. by destruct (def_const _ _ _).
  - destruct (get_constant _ _); [|done]. by case_match.
Qed.

(** ** The constants of a successful pass 1 *)

Lemma define_all_other (bases : list string) (i : nat) (m : gmap string Z)
    (x : string) :
  (∀ b, b ∈ bases → symbol_spec b ≠ x) →
  define_all bases i m !! x = m !! x.
Proof.
  revert i m. induction bases as [|b bs IH]; intros i m Hx; simpl; [done|].
  rewrite IH by (intros c Hc; apply Hx; by right).
  apply lookup_insert_ne, Hx. by left.
Qed.

Lemma define_all_lookup (bases : list string) (i : nat) (m : gmap string Z)
    (k : nat) (b : string) :
  NoDup bases → bases !! k = Some b →
  define_all bases i m !! symbol_spec b = Some (Z.of_nat (i + k)).
Proof.
  revert i m k. induction bases as [|c bs IH]; intros i m k Hnd Hk; [done|].
  apply NoDup_cons in Hnd as [Hc Hnd]. destruct k as [|k]; simpl in *.
  - injection Hk as ->. rewrite define_all_other.
    + rewrite lookup_insert_eq. do 2 f_equal. lia.
    + intros c Hin Heq. apply symbol_spec_inj in Heq. by subst.
  - rewrite (IH (S i) _ k) by done. do 2 f_equal. lia.
Qed.

Lemma set_constants_id (s : state) : set_constants s (constants (pi s)) = s.
Proof. by destruct s as [[] ? ?]. Qed.

(** ** Pass 1 *)

Lemma predef_run_pass1_ok (bases : list string) (i : nat) (s : state) :
  pass (pi s) = PASS_1 →
  Forall fits bases → NoDup bases →
  (∀ b, b ∈ bases →
     constants (pi s) !! symbol_spec b = None ∧
     variables (pi s) !! symbol_spec b = None) →
  predef_run bases i s
    = Some (true, set_constants s (define_all bases i (constants (pi s)))).
Proof.
  revert i s. induction bases as [|b bs IH]; intros i s Hpass Hfit Hnd Hfree.
  - simpl. by rewrite set_constants_id.
  - apply Forall_cons in Hfit as [Hb Hfit].
    apply NoDup_cons in Hnd as [Hnotin Hnd].
    destruct (Hfree b) as [Hc Hv]; [by left|].
    simpl. rewrite predef_body_define by done. rewrite obind_Some.
    rewrite IH; [done..|].
    intros c Hin. destruct (Hfree c) as [Hc' Hv']; [by right|].
    split; [|done]. simpl. rewrite lookup_insert_ne; [done|].
    intros Heq. apply symbol_spec_inj in Heq. by subst.
Qed.

(** Pass 1 stops at the first name whose symbol is taken, by a constant
    or by a variable, with the line-215 message for that symbol. *)
Lemma predef_run_pass1_fail (bases : list string) (i k : nat) (s : state)
    (b : string) :
  pass (pi s) = PASS_1 →
  Forall fits bases → NoDup bases →
  bases !! k = Some b →
  (∀ j c, j < k → bases !! j = Some c →
     constants (pi s) !! symbol_spec c = None ∧
     variables (pi s) !! symbol_spec c = None) →
  is_Some (constants (pi s) !! symbol_spec b) ∨
  is_Some (variables (pi s) !! symbol_spec b) →
  predef_run bases i s
    = Some (false,
        fprintf_stderr
          (set_constants s
             (define_all (take k bases) i (constants (pi s))))
          (CantDefineTwice (symbol_spec b))).
Proof.
  revert i k s.
  induction bases as [|c bs IH]; intros i k s Hpass Hfit Hnd Hk Hfree Htaken;
    [done|].
  apply Forall_cons in Hfit as [Hc Hfit].
  apply NoDup_cons in Hnd as [Hnotin Hnd].
  destruct k as [|k]; simpl in Hk.
  - injection Hk as ->. simpl. rewrite set_constants_id.
    by rewrite predef_body_taken.
  - destruct (Hfree 0 c) as [Hcc Hcv]; [lia|done|].
    assert (symbol_spec c ≠ symbol_spec b) as Hne.
    { intros Heq. apply symbol_spec_inj in Heq. subst c.
      apply Hnotin. by eapply list_elem_of_lookup_2. }
    cbn [predef_run take define_all].
    rewrite predef_body_define by done. rewrite obind_Some.
    set (s' := set_constants s
            (<[symbol_spec c := Z.of_nat i]> (constants (pi s)))).
    rewrite (IH (S i) k s'); [done..| |].
    + intros j e Hj He. destruct (Hfree (S j) e) as [He1 He2]; [lia|done|].
      split; [|done]. simpl. rewrite lookup_insert_ne; [done|].
      intros Heq. apply symbol_spec_inj in Heq. subst e.
      apply Hnotin. by eapply list_elem_of_lookup_2.
    + simpl. by rewrite lookup_insert_ne.
Qed.

(** ** Pass 2 *)

Lemma predef_run_pass2_ok (bases : list string) (i : nat) (s : state) :
  pass (pi s) = PASS_2 →
  Forall fits bases →
  (∀ k b, bases !! k = Some b →
     constants (pi s) !! symbol_spec b = Some (Z.of_nat (i + k))) →
  predef_run bases i s = Some (true, s).
Proof.
  revert i. induction bases as [|b bs IH]; intros i Hpass Hfit Hall; [done|].
  apply Forall_cons in Hfit as [Hb Hfit]. simpl.
  rewrite predef_body_unchanged; [|done..|].
  - rewrite obind_Some. apply IH; [done..|].
    intros k c Hk. rewrite (Hall (S k) c Hk). do 2 f_equal. lia.
  - rewrite (Hall 0 b) by done. do 2 f_equal. lia.
Qed.

(** Pass 2 stops at the first name whose constant is not there with the
    index as its value, and prints one message, about that name. *)
Lemma predef_run_pass2_fail (bases : list string) (i k : nat) (s : state)
    (b : string) :
  pass (pi s) = PASS_2 →
  Forall fits bases →
  bases !! k = Some b →
  (∀ j c, j < k → bases !! j = Some c →
     constants (pi s) !! symbol_spec c = Some (Z.of_nat (i + j))) →
  (constants (pi s) !! symbol_spec b = None →
     predef_run bases i s
       = Some (false, fprintf_stderr s (ConstantMissing (symbol_spec b)))) ∧
  (∀ v, constants (pi s) !! symbol_spec b = Some v → v ≠ Z.of_nat (i + k) →
     predef_run bases i s
       = Some (false, fprintf_stderr s
           (ConstantChanged (symbol_spec b) v (Z.of_nat (i + k))))).
Proof.
  revert i k.
  induction bases as [|c bs IH]; intros i k Hpass Hfit Hk Hbefore; [done|].
  apply Forall_cons in Hfit as [Hc Hfit].
  destruct k as [|k]; simpl in Hk.
  - injection Hk as ->. rewrite Nat.add_0_r. simpl. split.
    + intros Hnone. by rewrite predef_body_missing.
    + intros v Hv Hne. by rewrite (predef_body_changed _ _ _ v).
  - simpl. rewrite predef_body_unchanged; [|done..|].
    + rewrite obind_Some. replace (i + S k) with (S i + k) by lia.
      apply IH; [done..|].
      intros j e Hj He. rewrite (Hbefore (S j) e); [|lia|done].
      do 2 f_equal. lia.
    + rewrite (Hbefore 0 c); [|lia|done]. do 2 f_equal. lia.
Qed.

(** ** Both passes *)

Lemma predef_body_frame (i : nat) (b : string) (s s' : state) (ok : bool) :
  predef_body i b s = Some (ok, s') →
  variables (pi s') = variables (pi s) ∧ pass (pi s') = pass (pi s) ∧
  LastDevice s' = LastDevice s.
Proof.
  unfold predef_body, test_constant, get_constant, def_const.
  destruct (dev_symbol b) as [temp|]; [|done]. rewrite obind_Some.
  destruct (pass (pi s)) eqn:Hpass.
  - destruct (constants (pi s) !! temp); [by intros [= <- <-]|].
    destruct (variables (pi s) !! temp); by intros [= <- <-].
  - destruct (constants (pi s) !! temp) as [j|]; [|by intros [= <- <-]].
    destruct (Z.of_nat i =? j)%Z; by intros [= <- <-].
Qed.

Lemma predef_run_frame (bases : list string) (i : nat) (s s' : state)
    (r : bool) :
  predef_run bases i s = Some (r, s') →
  variables (pi s') = variables (pi s) ∧ pass (pi s') = pass (pi s) ∧
  LastDevice s' = LastDevice s.
Proof.
  revert i s. induction bases as [|b bs IH]; intros i s; simpl.
  - by intros [= <- <-].
  - destruct (predef_body i b s) as [[ok s1]|] eqn:Hbody; [|done].
    apply predef_body_frame in Hbody as (Hv & Hp & Hl). rewrite obind_Some.
    destruct ok.
    + intros Hrun. apply IH in Hrun as (Hv' & Hp' & Hl'). split_and!; congruence.
    + by intros [= <- <-].
Qed.

Lemma predef_run_total (bases : list string) (i : nat) (s : state) :
  Forall fits bases → is_Some (predef_run bases i s).
Proof.
  revert i s. induction bases as [|b bs IH]; intros i s Hfit; [done|].
  apply Forall_cons in Hfit as [Hb Hfit]. simpl.
  destruct (predef_body_total i b s Hb) as [[[] s1] ->]; rewrite obind_Some;
    [by apply IH|done].
Qed.

(** inverse of [names_until_null_lookup] when the end mark is the last
    entry *)
Lemma names_until_null_lookup_inv (tbl : list device) (ns : list string)
    (k : nat) (d : device) (n : string) :
  names_until_null tbl = Some ns → length tbl = S (length ns) →
  tbl !! k = Some d → name d = Some n → ns !! k = Some n.
Proof.
  revert ns k. induction tbl as [|e tbl IH]; intros ns k Hns Hlen Hk Hn; [done|].
  simpl in Hns. destruct (name e) as [en|] eqn:He.
  - destruct (names_until_null tbl) as [ns'|] eqn:Hns'; [|done].
    simpl in Hns. injection Hns as <-. simpl in Hlen.
    destruct k as [|k]; simpl in *.
    + injection Hk as ->. congruence.
    + apply (IH ns' k); [done|lia|done..].
  - injection Hns as <-. simpl in Hlen.
    destruct tbl; [|done]. destruct k; simpl in Hk; [|done].
    injection Hk as ->. congruence.
Qed.

(** * The shipped table *)

Lemma nocase_distinct_spec (ns : list string) :
  nocase_distinct ns = true →
  ∀ i j a b, ns !! i = Some a → ns !! j = Some b → i ≠ j →
    nocase_strcmp a b ≠ 0%Z.
Proof.
  induction ns as [|n ns IH]; intros Hd i j a b Hi Hj Hij; [done|].
  simpl in Hd. apply andb_true_iff in Hd as [Hall Hd].
  rewrite forallb_forall in Hall.
  destruct i as [|i], j as [|j]; simpl in *; [done|..].
  - injection Hi as ->. apply list_elem_of_lookup_2, list_elem_of_In in Hj.
    apply Hall, andb_true_iff in Hj as [Hj _].
    apply negb_true_iff in Hj. by destruct (Z.eqb_spec (nocase_strcmp a b) 0).
  - injection Hj as ->. apply list_elem_of_lookup_2, list_elem_of_In in Hi.
    apply Hall, andb_true_iff in Hi as [_ Hi].
    apply negb_true_iff in Hi. by destruct (Z.eqb_spec (nocase_strcmp a b) 0).
  - apply (IH Hd i j); [done..|lia].
Qed.

Lemma device_list_predef_names :
  predef_names device_list = Some device_list_names.
Proof. reflexivity. Qed.

Lemma device_list_device_names :
  device_names device_list = Some (drop 1 device_list_names).
Proof. reflexivity. Qed.

Lemma device_list_fits : Forall fits device_list_names.
Proof. apply (bool_decide_unpack _). by vm_compute. Qed.

Lemma device_list_NoDup : NoDup device_list_names.
Proof. apply (bool_decide_unpack _). by vm_compute. Qed.

Lemma device_list_no_var_clash :
  Forall (λ b, ¬ is_device_var (symbol_spec b)) device_list_names.
Proof. apply (bool_decide_unpack _). by vm_compute. Qed.

Lemma device_list_nocase_distinct :
  nocase_distinct (drop 1 device_list_names) = true.
Proof. by vm_compute. Qed.

Lemma device_list_base (i : nat) (b : string) :
  device_base device_list i b ↔ device_list_names !! i = Some b.
Proof.
  split.
  - intros [[-> ->]|[Hi (D & HD & Hb)]]; [done|].
    destruct i as [|k]; [lia|].
    change (device_list_names !! S k) with (drop 1 device_list_names !! k).
    apply (names_until_null_lookup_inv (drop 1 device_list) _ k D);
      [apply device_list_device_names|done| |done].
    by rewrite lookup_drop.
  - intros Hi. destruct i as [|k].
    + left. by injection Hi as <-.
    + right. split; [lia|].
      apply (device_names_lookup device_list (drop 1 device_list_names) k b);
        [apply device_list_device_names|done].
Qed.

(** The sizes and the RAM start of every entry are non-negative [int]s. *)
Lemma device_list_sizes_int :
  Forall (λ D, (0 ≤ flash_size D < 2 ^ 31)%Z ∧ (0 ≤ ram_start D < 2 ^ 31)%Z ∧
               (0 ≤ ram_size D < 2 ^ 31)%Z ∧ (0 ≤ eeprom_size D < 2 ^ 31)%Z)
    device_list.
Proof. apply (bool_decide_unpack _). by vm_compute. Qed.

(** * [predef_dev] *)

Lemma device_list_ok : registry_ok device_list device_list_names.
Proof.
  split; [apply device_list_predef_names|apply device_list_fits
         |apply device_list_NoDup|apply device_list_no_var_clash].
Qed.

Lemma registry_ok_variables (dl : list device) (bases : list string)
    (p : prog_info) (i : nat) (d : device) (b : string) :
  registry_ok dl bases → b ∈ bases →
  variables (dev_vars p i d) !! symbol_spec b = variables p !! symbol_spec b.
Proof.
  intros Hok Hb. apply dev_vars_other.
  by apply (proj1 (Forall_forall _ _) (ok_vars _ _ Hok)).
Qed.

(** C1: on a session that has none of the device symbols, pass 1 succeeds
    without a message and leaves, for every entry [i] met (entry 0 under
    ["DEFAULT"]), the constant of its symbol with value [i], every other
    constant being as before; pass 2 on the session so obtained, with the
    same table, succeeds and prints nothing (neither the missing-constant
    nor the changed-value message). *)
Theorem predef_dev_pass1_then_pass2 (dl : list device) (bases : list string)
    (s : state) (d : device) :
  registry_ok dl bases →
  pass (pi s) = PASS_1 →
  dl !! LastDevice s = Some d →
  (∀ b, b ∈ bases →
     constants (pi s) !! symbol_spec b = None ∧
     variables (pi s) !! symbol_spec b = None) →
  ∃ s1 s2,
    predef_dev dl s = Some (true, s1) ∧ stderr s1 = stderr s ∧
    (∀ i b, bases !! i = Some b →
       constants (pi s1) !! symbol_spec b = Some (Z.of_nat i)) ∧
    (∀ x, (∀ b, b ∈ bases → symbol_spec b ≠ x) →
       constants (pi s1) !! x = constants (pi s) !! x) ∧
    predef_dev dl (set_pass s1 PASS_2) = Some (true, s2) ∧
    stderr s2 = stderr s1.
Proof.
  intros Hok Hpass Hd Hfree.
  pose (s0 := set_pi s (dev_vars (pi s) (LastDevice s) d)).
  pose (s1 := set_constants s0 (define_all bases 0 (constants (pi s)))).
  assert (predef_dev dl s = Some (true, s1)) as Hrun1.
  { rewrite (predef_dev_run dl bases s d (ok_names _ _ Hok) Hd).
    apply (predef_run_pass1_ok bases 0 s0);
      [done|apply (ok_fits _ _ Hok)|apply (ok_nodup _ _ Hok)|].
    intros b Hb. destruct (Hfree b Hb) as [Hc Hv]. split; [done|].
    unfold s0. simpl pi. by rewrite (registry_ok_variables dl bases). }
  assert (∀ i b, bases !! i = Some b →
    constants (pi s1) !! symbol_spec b = Some (Z.of_nat i)) as Hdef.
  { intros i b Hi. simpl.
    by rewrite (define_all_lookup bases 0 _ i b (ok_nodup _ _ Hok) Hi). }
  pose (s2 := set_pi (set_pass s1 PASS_2)
                (dev_vars (pi (set_pass s1 PASS_2)) (LastDevice s) d)).
  exists s1, s2. split_and!; [done|done|done| | |done].
  - intros x Hx. simpl. by apply define_all_other.
  - rewrite (predef_dev_run dl bases (set_pass s1 PASS_2) d
               (ok_names _ _ Hok) Hd).
    apply (predef_run_pass2_ok bases 0 s2); [done|apply (ok_fits _ _ Hok)|].
    intros k b Hk. apply (Hdef k b Hk).
Qed.

(** C2: in pass 2, let entry [k], met under the name [b], be the first
    whose constant is not there with its index as value.  If no constant
    has that symbol, [predef_dev] returns [False] and what it has printed
    is what was printed before followed by the line-223 message for that
    symbol; if the constant is there with another value [v], it returns
    [False] and has added the line-227 message with the symbol, [v] and
    [k].  In both cases that one message is all that is added and the
    constants are untouched; nothing is assumed of the entries after [k]:
    they are not looked at. *)
Theorem predef_dev_pass2_first_failure (dl : list device)
    (bases : list string) (s : state) (d : device) (k : nat) (b : string) :
  predef_names dl = Some bases →
  Forall fits bases →
  pass (pi s) = PASS_2 →
  dl !! LastDevice s = Some d →
  bases !! k = Some b →
  (∀ j c, j < k → bases !! j = Some c →
     constants (pi s) !! symbol_spec c = Some (Z.of_nat j)) →
  let s0 := set_pi s (dev_vars (pi s) (LastDevice s) d) in
  (constants (pi s) !! symbol_spec b = None →
     ∃ s', predef_dev dl s = Some (false, s') ∧
       stderr s' = (stderr s ++ [ConstantMissing (symbol_spec b)])%list ∧
       constants (pi s') = constants (pi s) ∧
       s' = fprintf_stderr s0 (ConstantMissing (symbol_spec b))) ∧
  (∀ v, constants (pi s) !! symbol_spec b = Some v → v ≠ Z.of_nat k →
     ∃ s', predef_dev dl s = Some (false, s') ∧
       stderr s'
         = (stderr s ++ [ConstantChanged (symbol_spec b) v (Z.of_nat k)])%list ∧
       constants (pi s') = constants (pi s) ∧
       s' = fprintf_stderr s0
              (ConstantChanged (symbol_spec b) v (Z.of_nat k))).
Proof.
  intros Hnames Hfit Hpass Hd Hk Hbefore s0.
  rewrite (predef_dev_run dl bases s d Hnames Hd). fold s0.
  destruct (predef_run_pass2_fail bases 0 k s0 b Hpass Hfit Hk Hbefore)
    as [Hmiss Hchg].
  split.
  - intros Hnone. rewrite (Hmiss Hnone). eexists. by split_and!.
  - intros v Hv Hne. rewrite (Hchg v Hv Hne). eexists. by split_and!.
Qed.

(** In pass 2 a session that has every constant with its index as value
    passes, silently. *)
Lemma predef_dev_pass2_ok (dl : list device) (bases : list string)
    (s : state) (d : device) :
  predef_names dl = Some bases →
  Forall fits bases →
  pass (pi s) = PASS_2 →
  dl !! LastDevice s = Some d →
  (∀ k b, bases !! k = Some b →
     constants (pi s) !! symbol_spec b = Some (Z.of_nat k)) →
  predef_dev dl s = Some (true, set_pi s (dev_vars (pi s) (LastDevice s) d)).
Proof.
  intros Hnames Hfit Hpass Hd Hall.
  rewrite (predef_dev_run dl bases s d Hnames Hd).
  by apply predef_run_pass2_ok.
Qed.

(** C9: in either pass, and whether or not the loop then fails,
    [predef_dev] runs the loop on the session in which the four variables
    have already been set from the entry [LastDevice] points to; the
    variables are those of that session when it returns. *)
Theorem predef_dev_defines_device_vars (dl : list device)
    (bases : list string) (s : state) (d : device) :
  predef_names dl = Some bases →
  Forall fits bases →
  dl !! LastDevice s = Some d →
  predef_dev dl s
    = predef_loop dl 0 (set_pi s (dev_vars (pi s) (LastDevice s) d)) ∧
  ∃ r s',
    predef_dev dl s = Some (r, s') ∧
    variables (pi s') = variables (dev_vars (pi s) (LastDevice s) d) ∧
    defines_device_vars (pi s') (LastDevice s) d ∧
    LastDevice s' = LastDevice s.
Proof.
  intros Hnames Hfit Hd. split.
  { unfold predef_dev. by rewrite (def_dev_eq _ _ d Hd). }
  rewrite (predef_dev_run dl bases s d Hnames Hd).
  pose (s0 := set_pi s (dev_vars (pi s) (LastDevice s) d)). fold s0.
  destruct (predef_run_total bases 0 s0 Hfit) as [[r s'] Hrun].
  exists r, s'. split; [done|].
  apply predef_run_frame in Hrun as (Hv & _ & Hl).
  split_and!; [done| |done].
  unfold defines_device_vars. rewrite Hv. apply dev_vars_defines.
Qed.

(** ** Collisions in pass 1 *)






(** * The symbols of the shipped table *)

(** C10: every name [predef_dev] meets in [device_list] gives a symbol of
    at most [MAX_DEV_NAME] characters; lines 208-211 then build exactly
    prefix, name, suffix, and none of the three calls leaves the 33 bytes
    of [temp]. *)
Theorem device_list_symbols_fit (i : nat) (b : string) :
  device_base device_list i b →
  String.length (symbol_spec b) ≤ MAX_DEV_NAME ∧
  dev_symbol b = Some (symbol_spec b).
Proof.
  intros Hb. apply device_list_base in Hb.
  assert (fits b) as Hfit.
  { apply (proj1 (Forall_forall _ _) device_list_fits).
    by eapply list_elem_of_lookup_2. }
  split; [exact Hfit|by apply dev_symbol_fits].
Qed.




(** C8: in [device_list], entry 0 and the last entry have a NULL name, the
    entries between them have a name, [nocase_strcmp] tells the names of
    any two entries apart, and no size is negative. *)
Theorem device_list_invariant :
  (∃ d0, device_list !! 0 = Some d0 ∧ name d0 = None) ∧
  (∃ dz, last device_list = Some dz ∧ name dz = None) ∧
  (∀ i D, 0 < i → S i < length device_list →
     device_list !! i = Some D → is_Some (name D)) ∧
  (∀ i j Di Dj a b,
     device_list !! i = Some Di → device_list !! j = Some Dj →
     name Di = Some a → name Dj = Some b → i ≠ j →
     nocase_strcmp a b ≠ 0%Z) ∧
  Forall (λ D, (0 ≤ flash_size D)%Z ∧ (0 ≤ ram_size D)%Z ∧
               (0 ≤ eeprom_size D)%Z) device_list.
Proof.
  assert (∀ i D a, device_list !! i = Some D → name D = Some a →
    ∃ k, i = S k ∧ drop 1 device_list_names !! k = Some a) as Hnamed.
  { intros i D a HD Ha. destruct i as [|k].
    - injection HD as <-. done.
    - exists k. split; [done|].
      change (device_list_names !! S k = Some a).
      apply device_list_base. right. split; [lia|]. by exists D. }
  split_and!.
  - by eexists.
  - by eexists.
  - intros i D Hi Hlen HD.
    assert (is_Some (device_list_names !! i)) as [b Hb].
    { apply lookup_lt_is_Some. simpl in *. lia. }
    apply device_list_base in Hb as [[-> _]|[_ (D' & HD' & Hn)]]; [lia|].
    rewrite HD in HD'. injection HD' as <-. by exists b.
  - intros i j Di Dj a b Hi Hj Ha Hb Hij.
    destruct (Hnamed i Di a Hi Ha) as (i' & -> & Hi').
    destruct (Hnamed j Dj b Hj Hb) as (j' & -> & Hj').
    apply (nocase_distinct_spec _ device_list_nocase_distinct i' j');
      [done..|lia].
  - apply (bool_decide_unpack _). by vm_compute.
Qed.

(** * The statements at concrete sessions *)

Lemma get_device_null_name_witness :
  device_list !! 0 = Some default_device ∧
  get_device device_list (init_state PASS_1) None
    = Some (Some 0,
            mk_state (dev_vars (empty_pi PASS_1) 0 default_device) 0 []) ∧
  defines_device_vars (dev_vars (empty_pi PASS_1) 0 default_device)
    0 default_device.
Proof.
  split; [reflexivity|].
  apply (get_device_null_name device_list (init_state PASS_1) default_device).
  reflexivity.
Defined.

Lemma get_device_not_found_witness :
  get_device device_list (init_state PASS_1) (Some "no-such-device")
    = Some (None,
            mk_state (dev_vars (empty_pi PASS_1) 0 default_device) 0 []) ∧
  defines_device_vars (dev_vars (empty_pi PASS_1) 0 default_device)
    0 default_device.
Proof.
  apply (get_device_not_found device_list (drop 1 device_list_names)
           (init_state PASS_1) default_device "no-such-device").
  - reflexivity.
  - reflexivity.
  - apply (bool_decide_unpack _). vm_compute. reflexivity.
Defined.

Lemma get_device_case_insensitive_witness :
  ∃ D, device_list !! 22 = Some D ∧ name D = Some "ATtiny85" ∧
    get_device device_list (init_state PASS_1) (Some "ATTINY85")
      = Some (Some 22, mk_state (dev_vars (empty_pi PASS_1) 22 D) 22 []) ∧
    defines_device_vars (dev_vars (empty_pi PASS_1) 22 D) 22 D.
Proof.
  apply (get_device_case_insensitive device_list (drop 1 device_list_names)
           (init_state PASS_1) 21 "ATtiny85" "ATTINY85").
  - reflexivity.
  - apply nocase_distinct_spec. vm_compute. reflexivity.
  - reflexivity.
  - right. left. reflexivity.
Defined.

Lemma predef_dev_pass1_then_pass2_witness :
  ∃ s1 s2,
    predef_dev device_list (init_state PASS_1) = Some (true, s1) ∧
    stderr s1 = [] ∧
    (∀ i b, device_list_names !! i = Some b →
       constants (pi s1) !! symbol_spec b = Some (Z.of_nat i)) ∧
    (∀ x, (∀ b, b ∈ device_list_names → symbol_spec b ≠ x) →
       constants (pi s1) !! x = (∅ : gmap string Z) !! x) ∧
    predef_dev device_list (set_pass s1 PASS_2) = Some (true, s2) ∧
    stderr s2 = stderr s1.
Proof.
  apply (predef_dev_pass1_then_pass2 device_list device_list_names
           (init_state PASS_1) default_device).
  - apply device_list_ok.
  - reflexivity.
  - reflexivity.
  - intros b _. split; reflexivity.
Defined.

Lemma predef_dev_pass2_first_failure_witness :
  (∃ s', predef_dev device_list (init_state PASS_2) = Some (false, s') ∧
     stderr s' = [ConstantMissing "__DEFAULT__"] ∧
     constants (pi s') = ∅) ∧
  (∃ s', predef_dev device_list changed_attiny4 = Some (false, s') ∧
     stderr s' = [ConstantChanged "__ATtiny4__" 5 1] ∧
     constants (pi s') = constants (pi changed_attiny4)).
Proof.
  split.
  - destruct (predef_dev_pass2_first_failure device_list device_list_names
                (init_state PASS_2) default_device 0 DEF_DEV_NAME)
      as [Hmiss _].
    + reflexivity.
    + apply device_list_fits.
    + reflexivity.
    + reflexivity.
    + reflexivity.
    + intros j c Hj. lia.
    + destruct Hmiss as (s' & Hrun & Herr & Hcon & _); [reflexivity|].
      exists s'. split_and!; [exact Hrun|exact Herr|exact Hcon].
  - destruct (predef_dev_pass2_first_failure device_list device_list_names
                changed_attiny4 default_device 1 "ATtiny4")
      as [_ Hchg].
    + reflexivity.
    + apply device_list_fits.
    + reflexivity.
    + reflexivity.
    + reflexivity.
    + intros [|j] c Hj Hc; [|lia]. injection Hc as <-. reflexivity.
    + destruct (Hchg 5%Z) as (s' & Hrun & Herr & Hcon & _);
        [reflexivity|lia|].
      exists s'. split_and!; [exact Hrun|exact Herr|exact Hcon].
Defined.


Lemma predef_dev_defines_device_vars_witness :
  predef_dev device_list (init_state PASS_2)
    = predef_loop device_list 0
        (set_pi (init_state PASS_2)
           (dev_vars (empty_pi PASS_2) 0 default_device)) ∧
  ∃ r s',
    predef_dev device_list (init_state PASS_2) = Some (r, s') ∧
    variables (pi s')
      = variables (dev_vars (empty_pi PASS_2) 0 default_device) ∧
    defines_device_vars (pi s') 0 default_device ∧
    LastDevice s' = 0.
Proof.
  apply (predef_dev_defines_device_vars device_list device_list_names
           (init_state PASS_2) default_device).
  - reflexivity.
  - apply device_list_fits.
  - reflexivity.
Defined.

Lemma device_list_symbols_fit_witness :
  device_base device_list 22 "ATtiny85" ∧
  String.length (symbol_spec "ATtiny85") ≤ MAX_DEV_NAME ∧
  dev_symbol "ATtiny85" = Some "__ATtiny85__".
Proof.
  assert (device_base device_list 22 "ATtiny85") as Hb.
  { right. split; [lia|]. eexists. split; reflexivity. }
  split; [exact Hb|].
  apply (device_list_symbols_fit 22 "ATtiny85" Hb).
Defined.

(** * Scenarios *)

(** The two-device table of the end-to-end scenario. *)
Example scenario_lookup :
  let dl := [default_device;
             dev (Some "ATtiny85") 4096 96 512 512 [];
             dev (Some "ATmega328P") 16384 256 2048 1024 [];
             dev None 0 0 0 0 []] in
  ∃ s1 s2,
    get_device dl (init_state PASS_1) (Some "attiny85") = Some (Some 1, s1) ∧
    LastDevice s1 = 1 ∧
    variables (pi s1) !! DEV_VAR = Some 1%Z ∧
    variables (pi s1) !! FLASH_VAR = Some 4096%Z ∧
    variables (pi s1) !! EEPROM_VAR = Some 512%Z ∧
    variables (pi s1) !! RAM_VAR = Some 512%Z ∧
    get_device dl s1 None = Some (Some 0, s2) ∧
    LastDevice s2 = 0 ∧
    variables (pi s2) !! DEV_VAR = Some 0%Z ∧
    variables (pi s2) !! FLASH_VAR = Some 4194304%Z.
Proof. do 2 eexists. split_and!; by vm_compute. Qed.

(** Pass 2 with the constant of entry 0 at 5: line 227 with 5 and 0. *)
Example scenario_changed :
  let s := mk_state (mk_prog_info PASS_2 {[ "__DEFAULT__" := 5%Z ]} ∅) 0 [] in
  stderr <$> (snd <$> predef_dev device_list s)
    = Some [ConstantChanged "__DEFAULT__" 5 0].
Proof. by vm_compute. Qed.

(** The variables are written before the loop starts: a device called
    [DEVICE] meets the variable [__DEVICE__] of the same call. *)
Example scenario_device_named_DEVICE :
  let dl := [default_device; dev (Some "DEVICE") 256 64 32 0 [];
             dev None 0 0 0 0 []] in
  ∃ s', predef_dev dl (init_state PASS_1) = Some (false, s') ∧
        stderr s' = [CantDefineTwice "__DEVICE__"] ∧
        constants (pi s') !! "__DEFAULT__" = Some 0%Z ∧
        constants (pi s') !! "__DEVICE__" = None.
Proof. eexists. split_and!; by vm_compute. Qed.

(** * Further properties of [get_device] *)

Lemma get_device_scan_total (q : string) (tbl : list device)
    (ns : list string) (i : nat) :
  names_until_null tbl = Some ns →
  ∃ r, get_device_scan q tbl i = Some r ∧
    match r with
    | None => Forall (λ dn, nocase_strcmp q dn ≠ 0%Z) ns
    | Some j =>
        ∃ k n, j = i + k ∧ ns !! k = Some n ∧ nocase_strcmp q n = 0%Z ∧
          ∀ j' m, j' < k → ns !! j' = Some m → nocase_strcmp q m ≠ 0%Z
    end.
Proof.
  intros Hns.
  destruct (list_find (λ dn, nocase_strcmp q dn = 0%Z) ns) as [[k n]|] eqn:Hf.
  - apply list_find_Some in Hf as (Hk & Hq & Hbefore).
    exists (Some (i + k)). split.
    + apply (get_device_scan_found q tbl ns i k n); [done..|].
      intros j m Hj Hm. by apply (Hbefore j m).
    + exists k, n. split_and!; [done..|].
      intros j m Hj Hm. by apply (Hbefore j m).
  - apply list_find_None in Hf. exists None. split; [|done].
    by apply (get_device_scan_none q tbl ns).
Qed.

(** X1: on any table with entry 0 and an end mark, [get_device] with a
    name returns; the entry it returns is the first named entry, in table
    order, that [nocase_strcmp] equates with the name (never entry 0),
    [LastDevice] is its index and the four variables are its; it returns
    NULL, with [LastDevice] 0, exactly when no named entry compares equal. *)
Theorem get_device_first_match (dl : list device) (ns : list string)
    (s : state) (d0 : device) (q : string) :
  dl !! 0 = Some d0 →
  device_names dl = Some ns →
  ∃ r s', get_device dl s (Some q) = Some (r, s') ∧
    match r with
    | None =>
        LastDevice s' = 0 ∧ defines_device_vars (pi s') 0 d0 ∧
        Forall (λ dn, nocase_strcmp q dn ≠ 0%Z) ns
    | Some i =>
        LastDevice s' = i ∧
        ∃ k n D, i = S k ∧ ns !! k = Some n ∧
          dl !! i = Some D ∧ name D = Some n ∧
          nocase_strcmp q n = 0%Z ∧
          (∀ j m, j < k → ns !! j = Some m → nocase_strcmp q m ≠ 0%Z) ∧
          defines_device_vars (pi s') i D
    end.
Proof.
  intros Hd0 Hns.
  destruct (get_device_scan_total q (drop 1 dl) ns 1 Hns) as (r & Hscan & Hr).
  unfold get_device. rewrite Hscan, obind_Some. destruct r as [i|].
  - destruct Hr as (k & n & -> & Hk & Hq & Hbefore).
    destruct (device_names_lookup _ _ _ _ Hns Hk) as (D & HD & Hname).
    rewrite (def_dev_eq _ _ D) by done. rewrite obind_Some.
    eexists _, _. split; [done|]. split; [done|].
    exists k, n, D. split_and!; [done..|]. apply dev_vars_defines.
  - rewrite (def_dev_eq _ _ d0) by done. rewrite obind_Some.
    eexists _, _. split; [done|]. split_and!; [done| |done].
    apply dev_vars_defines.
Qed.

Lemma get_device_shape (dl : list device) (s s' : state)
    (q : option string) (r : option nat) :
  get_device dl s q = Some (r, s') →
  ∃ D, dl !! LastDevice s' = Some D ∧
    s' = mk_state (dev_vars (pi s) (LastDevice s') D) (LastDevice s')
           (stderr s) ∧
    LastDevice s' = default 0 r.
Proof.
  unfold get_device, def_dev. destruct q as [n|]; simpl.
  - destruct (get_device_scan n (drop 1 dl) 1) as [[i|]|]; simpl; [| |done].
    + destruct (dl !! i) as [D|] eqn:HD; simpl; [|done].
      intros [= <- <-]. by exists D.
    + destruct (dl !! 0) as [D|] eqn:HD; simpl; [|done].
      intros [= <- <-]. by exists D.
  - destruct (dl !! 0) as [D|] eqn:HD; simpl; [|done].
    intros [= <- <-]. by exists D.
Qed.

(** X2: [get_device] writes the four variables and [LastDevice] and
    nothing else: the constants, the pass, what was printed and every
    other variable are as before; and [LastDevice] is left at an index
    inside the table. *)
Theorem get_device_frame (dl : list device) (s s' : state)
    (q : option string) (r : option nat) :
  get_device dl s q = Some (r, s') →
  constants (pi s') = constants (pi s) ∧
  pass (pi s') = pass (pi s) ∧
  stderr s' = stderr s ∧
  (∀ x, ¬ is_device_var x → variables (pi s') !! x = variables (pi s) !! x) ∧
  is_Some (dl !! LastDevice s').
Proof.
  intros Hget. destruct (get_device_shape _ _ _ _ _ Hget) as (D & HD & Hs & _).
  split_and!; [by rewrite Hs..| |by exists D].
  intros x Hx. rewrite Hs. simpl pi. by apply dev_vars_other.
Qed.

Lemma dev_vars_twice (p : prog_info) (i j : nat) (d e : device) :
  dev_vars (dev_vars p i d) j e = dev_vars p j e.
Proof.
  unfold dev_vars, def_var. simpl. f_equal. apply map_eq. intros x.
  rewrite !lookup_insert. by repeat case_decide.
Qed.

(** X3: the selection does not outlive the next call.  After any call of
    [get_device], a further call gives the result and the session that it
    would have given without the first one. *)
Theorem get_device_forgets (dl : list device) (s s1 : state)
    (q1 q2 : option string) (r1 : option nat) :
  get_device dl s q1 = Some (r1, s1) →
  get_device dl s1 q2 = get_device dl s q2.
Proof.
  intros Hget. destruct (get_device_shape _ _ _ _ _ Hget) as (D & _ & Hs & _).
  rewrite Hs. generalize (LastDevice s1). intros l.
  unfold get_device, def_dev, set_LastDevice, set_pi.
  cbn [pi LastDevice stderr].
  destruct q2 as [n|].
  - destruct (get_device_scan n (drop 1 dl) 1) as [[i|]|]; [| |done];
      rewrite !obind_Some; cbn [pi LastDevice stderr].
    + destruct (dl !! i) as [E|]; [|done]. rewrite !obind_Some.
      fold (dev_vars (dev_vars (pi s) l D) i E).
      fold (dev_vars (pi s) i E). by rewrite dev_vars_twice.
    + destruct (dl !! 0) as [E|]; [|done]. rewrite !obind_Some.
      fold (dev_vars (dev_vars (pi s) l D) 0 E).
      fold (dev_vars (pi s) 0 E). by rewrite dev_vars_twice.
  - destruct (dl !! 0) as [E|]; [|done]. rewrite !obind_Some.
    fold (dev_vars (dev_vars (pi s) l D) 0 E).
    fold (dev_vars (pi s) 0 E). by rewrite dev_vars_twice.
Qed.

(** * Entries after the end mark *)

Lemma get_device_scan_app (q : string) (tbl more : list device)
    (ns : list string) (i : nat) :
  names_until_null tbl = Some ns →
  get_device_scan q (tbl ++ more) i = get_device_scan q tbl i.
Proof.
  revert ns i. induction tbl as [|d tbl IH]; intros ns i Hns; [done|].
  simpl in *. destruct (name d) as [dn|]; [|done].
  destruct (names_until_null tbl) as [ns'|]; [|done].
  destruct (nocase_strcmp q dn =? 0)%Z; [done|]. by apply (IH ns').
Qed.

Lemma predef_loop_app (tbl more : list device) (ns : list string)
    (i : nat) (s : state) :
  names_until_null tbl = Some ns →
  predef_loop (tbl ++ more) (S i) s = predef_loop tbl (S i) s.
Proof.
  revert ns i s. induction tbl as [|d tbl IH]; intros ns i s Hns; [done|].
  simpl in *. destruct (name d) as [dn|]; [|done].
  destruct (names_until_null tbl) as [ns'|]; [|done].
  destruct (predef_body (S i) dn s) as [[[] s']|]; simpl; [|done..].
  by apply (IH ns').
Qed.

Lemma list_devices_loop_app (count : list dflag → Z)
    (tbl more : list device) (ns : list string) :
  names_until_null tbl = Some ns →
  list_devices_loop count (tbl ++ more) = list_devices_loop count tbl.
Proof.
  revert ns. induction tbl as [|d tbl IH]; intros ns Hns; [done|].
  simpl in *. destruct (name d) as [dn|]; [|done].
  destruct (names_until_null tbl) as [ns'|]; [|done].
  by rewrite (IH ns').
Qed.

(** X4: whatever stands in the table after the first NULL name of the
    entries 1, 2, ... is never read: [get_device], [predef_dev] (called
    with [LastDevice] inside the table proper) and [list_devices] give on
    the longer table what they give on the table cut after the end
    mark. *)
Theorem after_end_mark_ignored (dl more : list device) (ns : list string) :
  device_names dl = Some ns →
  (∀ s q, get_device (dl ++ more) s q = get_device dl s q) ∧
  (∀ s, LastDevice s < length dl →
     predef_dev (dl ++ more) s = predef_dev dl s) ∧
  (∀ count, list_devices count (dl ++ more) = list_devices count dl).
Proof.
  intros Hns. destruct dl as [|d0 tbl]; [done|].
  change (names_until_null tbl = Some ns) in Hns.
  split_and!.
  - intros s q. unfold get_device, def_dev.
    change (drop 1 ((d0 :: tbl) ++ more)%list) with (tbl ++ more)%list.
    change (drop 1 (d0 :: tbl)) with tbl.
    destruct q as [n|]; [|done].
    rewrite (get_device_scan_app n tbl more ns 1 Hns).
    destruct (get_device_scan_total n tbl ns 1 Hns) as (r & -> & Hr).
    rewrite !obind_Some. destruct r as [i|]; [|done].
    destruct Hr as (k & m & -> & Hk & _).
    destruct (names_until_null_lookup _ _ _ _ Hns Hk) as (D & HD & _).
    cbn [LastDevice set_LastDevice].
    change (((d0 :: tbl) ++ more)%list !! (1 + k)) with ((tbl ++ more)%list !! k).
    change ((d0 :: tbl) !! (1 + k)) with (tbl !! k).
    by rewrite (lookup_app_l_Some _ _ _ _ HD), HD.
  - intros s Hlast. unfold predef_dev, def_dev.
    rewrite lookup_app_l by done.
    destruct ((d0 :: tbl) !! LastDevice s) as [D|]; [|done].
    rewrite !obind_Some. cbn [predef_loop app].
    destruct (predef_body 0 DEF_DEV_NAME _) as [[[] s']|]; simpl; [|done..].
    by apply (predef_loop_app tbl more ns).
  - intros count. unfold list_devices.
    change (drop 1 ((d0 :: tbl) ++ more)%list) with (tbl ++ more)%list.
    change (drop 1 (d0 :: tbl)) with tbl.
    by rewrite (list_devices_loop_app count tbl more ns Hns).
Qed.

(** * Further properties of [predef_dev] *)

Lemma predef_body_effects (i : nat) (b : string) (s s' : state) (ok : bool) :
  predef_body i b s = Some (ok, s') →
  (∀ x v, constants (pi s) !! x = Some v → constants (pi s') !! x = Some v) ∧
  (ok = true → stderr s' = stderr s) ∧
  (stderr s' = stderr s ∨ ∃ m, stderr s' = (stderr s ++ [m])%list).
Proof.
  unfold predef_body, test_constant, get_constant, def_const.
  destruct (dev_symbol b) as [temp|]; [|done]. rewrite obind_Some.
  destruct (pass (pi s)).
  - destruct (constants (pi s) !! temp) eqn:Hc.
    { intros [= <- <-]. split_and!; [done|done|]. right. by eexists. }
    destruct (variables (pi s) !! temp); intros [= <- <-].
    { split_and!; [done|done|]. right. by eexists. }
    split_and!; [|done|by left].
    intros x v Hx. simpl. rewrite lookup_insert_ne; [done|]. congruence.
  - destruct (constants (pi s) !! temp) as [j|].
    + destruct (Z.of_nat i =? j)%Z; intros [= <- <-].
      * split_and!; [done|done|by left].
      * split_and!; [done|done|]. right. by eexists.
    + intros [= <- <-]. split_and!; [done|done|]. right. by eexists.
Qed.

Lemma predef_run_effects (bases : list string) (i : nat) (s s' : state)
    (r : bool) :
  predef_run bases i s = Some (r, s') →
  (∀ x v, constants (pi s) !! x = Some v → constants (pi s') !! x = Some v) ∧
  (r = true → stderr s' = stderr s) ∧
  (stderr s' = stderr s ∨ ∃ m, stderr s' = (stderr s ++ [m])%list).
Proof.
  revert i s. induction bases as [|b bs IH]; intros i s; simpl.
  - intros [= <- <-]. split_and!; [done|done|by left].
  - destruct (predef_body i b s) as [[ok s1]|] eqn:Hbody; [|done].
    apply predef_body_effects in Hbody as (Hc & Hok & Hm). rewrite obind_Some.
    destruct ok.
    + intros Hrun. apply IH in Hrun as (Hc' & Hok' & Hm').
      rewrite Hok in Hok', Hm' by done. split_and!; [|done..].
      intros x v Hx. by apply Hc', Hc.
    + intros [= <- <-]. split_and!; done.
Qed.

(** X5: whatever the session and in either pass, [predef_dev] on a table
    with an end mark and fitting symbols returns; it has kept every
    constant that was there, with its value, the pass and [LastDevice]; it
    has printed at most one message, and none when it returns [True]. *)
Theorem predef_dev_effects (dl : list device) (bases : list string)
    (s : state) (d : device) :
  predef_names dl = Some bases →
  Forall fits bases →
  dl !! LastDevice s = Some d →
  ∃ r s', predef_dev dl s = Some (r, s') ∧
    (∀ x v, constants (pi s) !! x = Some v →
       constants (pi s') !! x = Some v) ∧
    pass (pi s') = pass (pi s) ∧
    LastDevice s' = LastDevice s ∧
    (r = true → stderr s' = stderr s) ∧
    (stderr s' = stderr s ∨ ∃ m, stderr s' = (stderr s ++ [m])%list).
Proof.
  intros Hnames Hfit Hd.
  rewrite (predef_dev_run dl bases s d Hnames Hd).
  pose (s0 := set_pi s (dev_vars (pi s) (LastDevice s) d)). fold s0.
  destruct (predef_run_total bases 0 s0 Hfit) as [[r s'] Hrun].
  exists r, s'. split; [done|].
  pose proof (predef_run_frame _ _ _ _ _ Hrun) as (_ & Hp & Hl).
  pose proof (predef_run_effects _ _ _ _ _ Hrun) as (Hc & Hok & Hm).
  split_and!; done.
Qed.

(** In pass 2 either every constant is there with its index and the loop
    passes without a change, or the loop stops with one message at an
    entry whose constant is not. *)
Lemma predef_run_pass2_cases (bases : list string) (i : nat) (s : state) :
  pass (pi s) = PASS_2 →
  Forall fits bases →
  (predef_run bases i s = Some (true, s) ∧
   ∀ k b, bases !! k = Some b →
     constants (pi s) !! symbol_spec b = Some (Z.of_nat (i + k))) ∨
  (∃ k b m, bases !! k = Some b ∧
     constants (pi s) !! symbol_spec b ≠ Some (Z.of_nat (i + k)) ∧
     predef_run bases i s = Some (false, fprintf_stderr s m)).
Proof.
  intros Hpass. revert i.
  induction bases as [|b bs IH]; intros i Hfit; [by left|].
  apply Forall_cons in Hfit as [Hb Hfit].
  destruct (decide (constants (pi s) !! symbol_spec b = Some (Z.of_nat i)))
    as [Heq|Hne].
  - destruct (IH (S i) Hfit) as [[Hrun Hall]|(k & c & m & Hk & Hc & Hrun)].
    + left. split.
      * simpl. by rewrite predef_body_unchanged.
      * intros [|k] c Hk; simpl in Hk.
        -- injection Hk as <-. by rewrite Nat.add_0_r.
        -- rewrite (Hall k c Hk). do 2 f_equal. lia.
    + right. exists (S k), c, m. split_and!; [done| |].
      * by replace (i + S k) with (S i + k) by lia.
      * simpl. by rewrite predef_body_unchanged.
  - right. destruct (constants (pi s) !! symbol_spec b) as [v|] eqn:Hv.
    + exists 0, b, (ConstantChanged (symbol_spec b) v (Z.of_nat i)).
      rewrite Nat.add_0_r. split; [done|]. split; [by rewrite Hv|]. simpl.
      rewrite (predef_body_changed _ _ _ v); [done..|congruence].
    + exists 0, b, (ConstantMissing (symbol_spec b)).
      rewrite Nat.add_0_r. split; [done|]. split; [by rewrite Hv|]. simpl.
      by rewrite predef_body_missing.
Qed.

(** X6: pass 2 is a pure check.  It returns [True] exactly when every
    entry met has its constant with the entry's index as value; it leaves
    the constants as they are; and it returns [False] with exactly one
    message added otherwise. *)
Theorem predef_dev_pass2_iff (dl : list device) (bases : list string)
    (s : state) (d : device) :
  predef_names dl = Some bases →
  Forall fits bases →
  pass (pi s) = PASS_2 →
  dl !! LastDevice s = Some d →
  ∃ r s', predef_dev dl s = Some (r, s') ∧
    constants (pi s') = constants (pi s) ∧
    (r = true ↔
       ∀ k b, bases !! k = Some b →
         constants (pi s) !! symbol_spec b = Some (Z.of_nat k)) ∧
    (r = false → ∃ m, stderr s' = (stderr s ++ [m])%list).
Proof.
  intros Hnames Hfit Hpass Hd.
  rewrite (predef_dev_run dl bases s d Hnames Hd).
  pose (s0 := set_pi s (dev_vars (pi s) (LastDevice s) d)). fold s0.
  destruct (predef_run_pass2_cases bases 0 s0 Hpass Hfit)
    as [[Hrun Hall]|(k & b & m & Hk & Hne & Hrun)].
  - exists true, s0. split_and!; [done|done| |done].
    split; [|done]. intros _ k b Hk. apply (Hall k b Hk).
  - exists false, (fprintf_stderr s0 m). split_and!; [done|done| |by eexists].
    split; [done|]. intros Hall. destruct Hne. apply (Hall k b Hk).
Qed.

(** In pass 1 either no symbol is taken, or there is a first entry whose
    symbol is. *)
Lemma first_taken (bases : list string) (s : state) :
  (∀ b, b ∈ bases →
     constants (pi s) !! symbol_spec b = None ∧
     variables (pi s) !! symbol_spec b = None) ∨
  (∃ k b, bases !! k = Some b ∧
     (is_Some (constants (pi s) !! symbol_spec b) ∨
      is_Some (variables (pi s) !! symbol_spec b)) ∧
     ∀ j c, j < k → bases !! j = Some c →
       constants (pi s) !! symbol_spec c = None ∧
       variables (pi s) !! symbol_spec c = None).
Proof.
  pose (P := λ c : string,
          is_Some (constants (pi s) !! symbol_spec c) ∨
          is_Some (variables (pi s) !! symbol_spec c)).
  destruct (list_find P bases) as [[k b]|] eqn:Hfind.
  - right. apply list_find_Some in Hfind as (Hk & Hb & Hbefore).
    exists k, b. split_and!; [done..|].
    intros j c Hj Hc. specialize (Hbefore j c Hc Hj). unfold P in Hbefore.
    split; apply eq_None_not_Some; tauto.
  - left. apply list_find_None in Hfind. intros b Hb.
    apply (proj1 (Forall_forall _ _) Hfind) in Hb. unfold P in Hb.
    split; apply eq_None_not_Some; tauto.
Qed.

(** X7: on a well-formed table pass 1 returns [True] exactly when none of
    its symbols is taken, by a constant or by a variable. *)
Theorem predef_dev_pass1_iff (dl : list device) (bases : list string)
    (s : state) (d : device) :
  registry_ok dl bases →
  pass (pi s) = PASS_1 →
  dl !! LastDevice s = Some d →
  ∃ r s', predef_dev dl s = Some (r, s') ∧
    (r = true ↔
       ∀ b, b ∈ bases →
         constants (pi s) !! symbol_spec b = None ∧
         variables (pi s) !! symbol_spec b = None).
Proof.
  intros Hok Hpass Hd.
  pose proof (ok_names _ _ Hok) as Hnames.
  pose proof (ok_fits _ _ Hok) as Hfit.
  pose proof (ok_nodup _ _ Hok) as Hnd.
  rewrite (predef_dev_run dl bases s d Hnames Hd).
  pose (s0 := set_pi s (dev_vars (pi s) (LastDevice s) d)). fold s0.
  assert (∀ b, b ∈ bases →
    variables (pi s0) !! symbol_spec b = variables (pi s) !! symbol_spec b)
    as Hvars.
  { intros b Hb. by apply (registry_ok_variables dl bases). }
  destruct (first_taken bases s0) as [Hfree|(k & b & Hk & Htaken & Hfree)].
  - eexists true, _. split.
    + by apply (predef_run_pass1_ok bases 0 s0).
    + split; [|done]. intros _ c Hc. destruct (Hfree c Hc) as [Hcc Hcv].
      split; [done|]. by rewrite <- Hvars.
  - pose proof (predef_run_pass1_fail bases 0 k s0 b Hpass Hfit Hnd Hk Hfree
                  Htaken) as Hrun.
    eexists false, _. split; [exact Hrun|]. split; [done|]. intros Hall.
    destruct (Hall b) as [Hcc Hcv]; [by eapply list_elem_of_lookup_2|].
    rewrite <- Hvars in Hcv by (by eapply list_elem_of_lookup_2).
    change (constants (pi s0) !! symbol_spec b = None) in Hcc.
    rewrite Hcc, Hcv in Htaken. by destruct Htaken as [[]%is_Some_None|[]%is_Some_None].
Qed.

(** X8: a failing pass 1 takes nothing back.  When entry [k] is the first
    whose symbol is taken, [predef_dev] returns [False] and the constants
    of the entries before [k] have been defined, with their indices; no
    other constant has changed, so the entries after [k] are not
    defined. *)
Theorem predef_dev_pass1_no_rollback (dl : list device)
    (bases : list string) (s : state) (d : device) (k : nat) (b : string) :
  registry_ok dl bases →
  pass (pi s) = PASS_1 →
  dl !! LastDevice s = Some d →
  bases !! k = Some b →
  (∀ j c, j < k → bases !! j = Some c →
     constants (pi s) !! symbol_spec c = None ∧
     variables (pi s) !! symbol_spec c = None) →
  is_Some (constants (pi s) !! symbol_spec b) ∨
  is_Some (variables (pi s) !! symbol_spec b) →
  ∃ s', predef_dev dl s = Some (false, s') ∧
    (∀ j c, j < k → bases !! j = Some c →
       constants (pi s') !! symbol_spec c = Some (Z.of_nat j)) ∧
    (∀ x, (∀ j c, j < k → bases !! j = Some c → symbol_spec c ≠ x) →
       constants (pi s') !! x = constants (pi s) !! x).
Proof.
  intros Hok Hpass Hd Hk Hfree Htaken.
  pose proof (ok_names _ _ Hok) as Hnames.
  pose proof (ok_fits _ _ Hok) as Hfit.
  pose proof (ok_nodup _ _ Hok) as Hnd.
  rewrite (predef_dev_run dl bases s d Hnames Hd).
  pose (s0 := set_pi s (dev_vars (pi s) (LastDevice s) d)). fold s0.
  assert (∀ c, c ∈ bases →
    variables (pi s0) !! symbol_spec c = variables (pi s) !! symbol_spec c)
    as Hvars.
  { intros c Hc. by apply (registry_ok_variables dl bases). }
  rewrite (predef_run_pass1_fail bases 0 k s0 b Hpass Hfit Hnd Hk).
  2:{ intros j c Hj Hc. destruct (Hfree j c Hj Hc) as [Hcc Hcv].
      split; [done|]. rewrite Hvars; [done|by eapply list_elem_of_lookup_2]. }
  2:{ rewrite Hvars; [done|by eapply list_elem_of_lookup_2]. }
  eexists. split; [done|]. simpl. split.
  - intros j c Hj Hc.
    rewrite (define_all_lookup (take k bases) 0 _ j c); [done| |].
    + apply (sublist_NoDup _ bases); [done|apply sublist_take].
    + by rewrite lookup_take_lt.
  - intros x Hx. apply define_all_other. intros c Hc.
    apply elem_of_take in Hc as (j & Hc & Hj). by apply (Hx j c).
Qed.

Lemma predef_dev_pass1_result (dl : list device) (bases : list string)
    (s : state) (d : device) :
  registry_ok dl bases →
  pass (pi s) = PASS_1 →
  dl !! LastDevice s = Some d →
  (∀ b, b ∈ bases →
     constants (pi s) !! symbol_spec b = None ∧
     variables (pi s) !! symbol_spec b = None) →
  predef_dev dl s
    = Some (true,
        set_constants (set_pi s (dev_vars (pi s) (LastDevice s) d))
          (define_all bases 0 (constants (pi s)))).
Proof.
  intros Hok Hpass Hd Hfree.
  rewrite (predef_dev_run dl bases s d (ok_names _ _ Hok) Hd).
  apply (predef_run_pass1_ok bases 0
           (set_pi s (dev_vars (pi s) (LastDevice s) d)));
    [done|apply (ok_fits _ _ Hok)|apply (ok_nodup _ _ Hok)|].
  intros b Hb. destruct (Hfree b Hb) as [Hc Hv]. split; [done|].
  simpl pi. by rewrite (registry_ok_variables dl bases).
Qed.

(** X9: pass 2 notices a table that has changed since pass 1.  Let pass 1
    run on [dl] from a session without the symbols of either table, and
    pass 2 on [dl'].  Pass 2 returns [True] exactly when every entry of
    [dl'] has the name that [dl] has at the same index (entries dropped
    from the end go unnoticed).  At the first entry [k] of [dl'] whose
    name [b] differs, it returns [False] and prints the line-227 message
    with the old index [j] and [k] when [dl] has [b] at [j], and the
    line-223 message when [dl] has no [b]. *)
Theorem predef_dev_detects_table_change (dl dl' : list device)
    (bases bases' : list string) (s : state) (d d' : device) :
  registry_ok dl bases →
  predef_names dl' = Some bases' →
  Forall fits bases' →
  pass (pi s) = PASS_1 →
  dl !! LastDevice s = Some d →
  dl' !! LastDevice s = Some d' →
  (∀ b, b ∈ bases →
     constants (pi s) !! symbol_spec b = None ∧
     variables (pi s) !! symbol_spec b = None) →
  (∀ b, b ∈ bases' → constants (pi s) !! symbol_spec b = None) →
  ∃ s1 r2 s2,
    predef_dev dl s = Some (true, s1) ∧
    predef_dev dl' (set_pass s1 PASS_2) = Some (r2, s2) ∧
    (r2 = true ↔ ∀ k b, bases' !! k = Some b → bases !! k = Some b) ∧
    (∀ k b, bases' !! k = Some b → bases !! k ≠ Some b →
       (∀ j c, j < k → bases' !! j = Some c → bases !! j = Some c) →
       r2 = false ∧
       (∀ j, bases !! j = Some b →
          stderr s2 = (stderr s ++ [ConstantChanged (symbol_spec b)
                                      (Z.of_nat j) (Z.of_nat k)])%list) ∧
       (b ∉ bases →
          stderr s2
            = (stderr s ++ [ConstantMissing (symbol_spec b)])%list)).
Proof.
  intros Hok Hnames' Hfit' Hpass Hd Hd' Hfree Hfree'.
  pose proof (ok_nodup _ _ Hok) as Hnd.
  pose (K := define_all bases 0 (constants (pi s))).
  pose (s1 := set_constants (set_pi s (dev_vars (pi s) (LastDevice s) d)) K).
  assert (∀ j b, bases !! j = Some b →
    K !! symbol_spec b = Some (Z.of_nat j)) as HK1.
  { intros j b Hj. unfold K. by rewrite (define_all_lookup bases 0 _ j b). }
  assert (∀ b, b ∈ bases' → b ∉ bases → K !! symbol_spec b = None) as HK2.
  { intros b Hb Hnot. unfold K. rewrite define_all_other; [by apply Hfree'|].
    intros c Hc Heq. apply symbol_spec_inj in Heq. by subst. }
  pose (t := set_pass s1 PASS_2).
  pose (t0 := set_pi t (dev_vars (pi t) (LastDevice s) d')).
  assert (predef_dev dl' t = predef_run bases' 0 t0) as Hdev2.
  { by rewrite (predef_dev_run dl' bases' t d' Hnames' Hd'). }
  destruct (predef_run_total bases' 0 t0 Hfit') as [[r2 s2] Hrun2].
  exists s1, r2, s2. split_and!.
  - by apply predef_dev_pass1_result.
  - fold t. by rewrite Hdev2.
  - split.
    + intros ->.
      destruct (predef_run_pass2_cases bases' 0 t0 eq_refl Hfit')
        as [[_ Hall]|(k & b & m & _ & _ & Hrun)];
        [|rewrite Hrun in Hrun2; done].
      intros k b Hk. specialize (Hall k b Hk).
      change (K !! symbol_spec b = Some (Z.of_nat k)) in Hall.
      destruct (decide (b ∈ bases)) as [Hin|Hnot].
      * apply list_elem_of_lookup_1 in Hin as [j Hj].
        rewrite (HK1 j b Hj) in Hall.
        injection Hall as Hjk. apply Nat2Z.inj in Hjk. by subst.
      * rewrite HK2 in Hall; [done|by eapply list_elem_of_lookup_2|done].
    + intros Hsame.
      rewrite (predef_run_pass2_ok bases' 0 t0) in Hrun2; [|done..|].
      * by injection Hrun2 as <- _.
      * intros k b Hk. apply (HK1 k b). by apply Hsame.
  - intros k b Hk Hdiff Hbefore.
    destruct (predef_run_pass2_fail bases' 0 k t0 b eq_refl Hfit' Hk)
      as [Hmiss Hchg].
    { intros j c Hj Hc. apply (HK1 j c). by apply (Hbefore j c). }
    change (constants (pi t0)) with K in Hmiss, Hchg.
    assert (b ∈ bases') as Hb' by (by eapply list_elem_of_lookup_2).
    destruct (decide (b ∈ bases)) as [Hin|Hnot].
    + apply list_elem_of_lookup_1 in Hin as [j Hj].
      assert (j ≠ k) as Hjk by (intros ->; done).
      rewrite (Hchg (Z.of_nat j)) in Hrun2; [|by apply HK1|lia].
      injection Hrun2 as <- <-. split_and!; [done| |].
      * intros j' Hj'. by rewrite (NoDup_lookup bases j' j b).
      * intros Hnot. destruct Hnot. by eapply list_elem_of_lookup_2.
    + rewrite Hmiss in Hrun2 by (by apply HK2).
      injection Hrun2 as <- <-. split_and!; [done| |done].
      intros j Hj. destruct Hnot. by eapply list_elem_of_lookup_2.
Qed.

(** X10: a device selected between the passes does not disturb the
    check.  After a pass 1 from a session without the device symbols, and
    any call of [get_device] on the same table, pass 2 returns [True]
    without a message, [LastDevice] is still the selected index and the
    four variables are those of the selected entry. *)
Theorem predef_dev_selection_between_passes (dl : list device)
    (bases : list string) (s : state) (d : device) :
  registry_ok dl bases →
  pass (pi s) = PASS_1 →
  dl !! LastDevice s = Some d →
  (∀ b, b ∈ bases →
     constants (pi s) !! symbol_spec b = None ∧
     variables (pi s) !! symbol_spec b = None) →
  ∃ s1, predef_dev dl s = Some (true, s1) ∧
    ∀ q r s1', get_device dl s1 q = Some (r, s1') →
      ∃ s2 D,
        predef_dev dl (set_pass s1' PASS_2) = Some (true, s2) ∧
        stderr s2 = stderr s ∧
        LastDevice s2 = LastDevice s1' ∧
        dl !! LastDevice s1' = Some D ∧
        defines_device_vars (pi s2) (LastDevice s1') D.
Proof.
  intros Hok Hpass Hd Hfree.
  pose proof (ok_nodup _ _ Hok) as Hnd.
  eexists. split; [by apply predef_dev_pass1_result|].
  intros q r s1' Hget.
  pose proof (get_device_frame _ _ _ _ _ Hget) as (Hcon & _ & Herr & _ & _).
  destruct (get_device_shape _ _ _ _ _ Hget) as (D & HD & _ & _).
  exists (set_pi (set_pass s1' PASS_2)
            (dev_vars (pi (set_pass s1' PASS_2)) (LastDevice s1') D)), D.
  split_and!; [|exact Herr|done|done|apply dev_vars_defines].
  apply (predef_dev_pass2_ok dl bases (set_pass s1' PASS_2) D);
    [apply (ok_names _ _ Hok)|apply (ok_fits _ _ Hok)|done|done|].
  intros k b Hk. simpl. rewrite Hcon. simpl.
  by rewrite (define_all_lookup bases 0 _ k b).
Qed.

(** * The symbols *)

(** X11: two names never share a symbol.  When lines 208-211 build a
    symbol for [a] without leaving the buffer, the symbol has at most
    [MAX_DEV_NAME] characters and any name for which the same symbol is
    built is [a] itself. *)
Theorem dev_symbol_inj (a b t : string) :
  dev_symbol a = Some t →
  String.length t ≤ MAX_DEV_NAME ∧
  (dev_symbol b = Some t → b = a).
Proof.
  intros Ha. rewrite dev_symbol_cases in Ha.
  destruct (decide (fits a)) as [Hfit|]; [|done].
  apply (inj Some) in Ha. subst t.
  split; [exact Hfit|]. intros Hb. rewrite dev_symbol_cases in Hb.
  destruct (decide (fits b)); [|done]. apply (inj Some) in Hb.
  by apply symbol_spec_inj.
Qed.

(** * [list_devices] *)

Lemma list_devices_loop_rows (count : list dflag → Z) (tbl : list device)
    (ns : list string) :
  names_until_null tbl = Some ns →
  ∃ rows, list_devices_loop count tbl = Some rows ∧
    length rows = length ns ∧
    ∀ k n, ns !! k = Some n →
      ∃ D, tbl !! k = Some D ∧ name D = Some n ∧
        rows !! k = Some (print_device n (flash_size D) (ram_start D)
                            (ram_size D) (eeprom_size D) (count (flag D))).
Proof.
  revert ns. induction tbl as [|d tbl IH]; intros ns Hns; [done|].
  simpl in *. destruct (name d) as [dn|] eqn:Hd.
  - destruct (names_until_null tbl) as [ns'|]; [|done].
    simpl in Hns. injection Hns as <-.
    destruct (IH ns' eq_refl) as (rows & -> & Hlen & Hrows).
    eexists. split; [done|]. split; [simpl; by rewrite Hlen|].
    intros [|k] n Hk; simpl in Hk.
    + injection Hk as <-. by exists d.
    + by apply Hrows.
  - injection Hns as <-. by exists [].
Qed.

(** X12: on a table with entry 0 and an end mark, [list_devices] prints
    first the line of entry 0 and then one line per named entry, in table
    order and with that entry's name, sizes and instruction count: as
    many lines as there are devices before the end mark.  The devices
    listed are those [predef_dev] defines symbols for: after a pass 1 on
    the same (well-formed) table from a session without the device
    symbols, the name on the line at position [k] is the one whose symbol
    has become a constant of value [k + 1], and apart from the symbol of
    ["DEFAULT"] no constant has changed but those of the names listed. *)
Theorem list_devices_rows (count : list dflag → Z) (dl : list device)
    (ns : list string) (d0 : device) :
  dl !! 0 = Some d0 →
  device_names dl = Some ns →
  ∃ rows,
    list_devices count dl
      = Some (print_default (flash_size d0) (ram_start d0) (ram_size d0)
                (eeprom_size d0) (count (flag d0)) :: rows) ∧
    length rows = length ns ∧
    (∀ k n, ns !! k = Some n →
       ∃ D, dl !! S k = Some D ∧ name D = Some n ∧
         rows !! k = Some (print_device n (flash_size D) (ram_start D)
                             (ram_size D) (eeprom_size D) (count (flag D)))) ∧
    (∀ s d,
       registry_ok dl (DEF_DEV_NAME :: ns) →
       pass (pi s) = PASS_1 →
       dl !! LastDevice s = Some d →
       (∀ b, b ∈ DEF_DEV_NAME :: ns →
          constants (pi s) !! symbol_spec b = None ∧
          variables (pi s) !! symbol_spec b = None) →
       ∃ s1, predef_dev dl s = Some (true, s1) ∧
         (∀ k n f rs rz e c,
            rows !! k = Some (print_device n f rs rz e c) →
            constants (pi s1) !! symbol_spec n = Some (Z.of_nat (S k))) ∧
         (∀ x, constants (pi s1) !! x ≠ constants (pi s) !! x →
            x = symbol_spec DEF_DEV_NAME ∨
            ∃ k n f rs rz e c,
              rows !! k = Some (print_device n f rs rz e c) ∧
              x = symbol_spec n)).
Proof.
  intros Hd0 Hns.
  destruct (list_devices_loop_rows count (drop 1 dl) ns Hns)
    as (rows & Hloop & Hlen & Hrows).
  exists rows. unfold list_devices.
  rewrite Hd0, Hloop. split_and!; [done..| |].
  { intros k n Hk. destruct (Hrows k n Hk) as (D & HD & Hn & Hrow).
    exists D. split_and!; [|done..]. by rewrite lookup_drop in HD. }
  intros s d Hok Hpass Hd Hfree.
  eexists. split; [by apply predef_dev_pass1_result|].
  cbn [pi constants set_constants set_pi]. split.
  - intros k n f rs rz e c Hrow.
    assert (is_Some (ns !! k)) as [n' Hk].
    { apply lookup_lt_is_Some. rewrite <- Hlen.
      by eapply lookup_lt_Some. }
    destruct (Hrows k n' Hk) as (D & _ & _ & Hrow').
    rewrite Hrow in Hrow'. injection Hrow' as -> _ _ _ _ _.
    by rewrite (define_all_lookup (DEF_DEV_NAME :: ns) 0 _ (S k) n')
      by (apply (ok_nodup _ _ Hok) || done).
  - intros x Hx.
    destruct (decide (Exists (λ b, symbol_spec b = x) (DEF_DEV_NAME :: ns)))
      as [Hex|Hnone].
    + apply Exists_exists in Hex as (b & Hb & <-).
      apply elem_of_cons in Hb as [->|Hb]; [by left|]. right.
      apply list_elem_of_lookup_1 in Hb as [k Hk].
      destruct (Hrows k b Hk) as (D & _ & _ & Hrow). by eexists k, b, _, _, _, _, _.
    + destruct Hx. apply define_all_other. intros b Hb Heq.
      apply Hnone, Exists_exists. by exists b.
Qed.

(** * [LIST_APPEND] *)

Lemma is_list_functional (h : next_fields) (p : option nat)
    (xs ys : list nat) :
  is_list h p xs → is_list h p ys → xs = ys.
Proof.
  revert p ys. induction xs as [|a xs IH]; intros p [|b ys]; simpl.
  - done.
  - intros -> [? _]. done.
  - intros [-> _] ?. done.
  - intros [-> (nxt & Ha & Hxs)] [[= <-] (nxt' & Ha' & Hys)].
    rewrite Ha in Ha'. injection Ha' as <-. f_equal. by apply (IH nxt).
Qed.

Lemma is_list_suffix (h : next_fields) (p : option nat)
    (pre post : list nat) (a : nat) :
  is_list h p (pre ++ a :: post) → is_list h (Some a) (a :: post).
Proof.
  revert p. induction pre as [|b pre IH]; intros p; simpl.
  - intros [_ Hrest]. done.
  - intros [_ (nxt & _ & Hrest)]. by apply (IH nxt).
Qed.

Lemma is_list_NoDup (h : next_fields) (p : option nat) (xs : list nat) :
  is_list h p xs → NoDup xs.
Proof.
  revert p. induction xs as [|a xs IH]; intros p Hl; [constructor|].
  pose proof Hl as [-> (nxt & Ha & Hxs)]. constructor; [|by apply (IH nxt)].
  intros Hin. apply list_elem_of_split in Hin as (pre & post & Heq).
  rewrite Heq in Hxs. apply is_list_suffix in Hxs.
  pose proof (is_list_functional _ _ _ _ Hl Hxs) as Hsame.
  apply (f_equal length) in Hsame. rewrite Heq in Hsame. simpl in Hsame.
  rewrite length_app in Hsame. simpl in Hsame. lia.
Qed.

Lemma is_list_snoc (h : next_fields) (p : option nat) (xs : list nat)
    (l node : nat) :
  is_list h p (xs ++ [l]) → node ∉ (xs ++ [l])%list →
  is_list (<[l := Some node]> (<[node := None]> h)) p (xs ++ [l; node]).
Proof.
  intros Hl Hnode. pose proof (is_list_NoDup _ _ _ Hl) as Hnd.
  assert (l ≠ node) as Hln by (intros ->; apply Hnode; set_solver).
  revert p Hl Hnode Hnd. induction xs as [|a xs IH]; intros p Hl Hnode Hnd.
  - destruct Hl as [-> _]. simpl. split; [done|].
    exists (Some node). split; [by rewrite lookup_insert_eq|].
    split; [done|]. exists None. split; [|done].
    by rewrite lookup_insert_ne, lookup_insert_eq.
  - destruct Hl as [-> (nxt & Ha & Hxs)].
    change (((a :: xs) ++ [l])%list) with (a :: (xs ++ [l]))%list in Hnd, Hnode.
    apply NoDup_cons in Hnd as [Hal Hnd].
    apply not_elem_of_cons in Hnode as [Hna Hnode].
    change (is_list (<[l:=Some node]> (<[node:=None]> h)) (Some a)
              (a :: (xs ++ [l; node]))%list).
    split; [done|]. exists nxt. split; [|by apply IH].
    rewrite !lookup_insert_ne; [done|done|]. intros ->. apply Hal. set_solver.
Qed.

(** X13: [LIST_APPEND] appends.  If following [next] from [first_ptr]
    gives the nodes [xs], [last_ptr] is the last of them (NULL when there
    is none), and [node] is not among them, then afterwards the list from
    [first_ptr] is [xs] followed by [node], [last_ptr] is [node],
    [first_ptr] has changed only if the list was empty, and the [next]
    field of no other node outside the list has been written. *)
Theorem LIST_APPEND_appends (h : next_fields) (node : nat)
    (first_ptr last_ptr : option nat) (xs : list nat) :
  is_list h first_ptr xs →
  last_ptr = last xs →
  node ∉ xs →
  ∃ h' first',
    LIST_APPEND h node first_ptr last_ptr = (h', first', Some node) ∧
    is_list h' first' (xs ++ [node]) ∧
    last (xs ++ [node]) = Some node ∧
    first' = match xs with [] => Some node | _ :: _ => first_ptr end ∧
    ∀ a, a ∉ xs → a ≠ node → h' !! a = h !! a.
Proof.
  intros Hl -> Hnode. unfold LIST_APPEND.
  destruct (last xs) as [l|] eqn:Hlast.
  - apply last_Some in Hlast as [pre ->].
    eexists _, _. split; [done|]. split_and!.
    + rewrite <- app_assoc. by apply is_list_snoc.
    + apply last_snoc.
    + by destruct pre.
    + intros a Ha Han. rewrite !lookup_insert_ne; [done|done|].
      intros ->. apply Ha. set_solver.
  - apply last_None in Hlast as ->. simpl in Hl. subst first_ptr.
    eexists _, _. split; [done|]. split_and!; [|done|done|].
    + simpl. split; [done|]. exists None. by rewrite lookup_insert_eq.
    + intros a _ Han. by rewrite lookup_insert_ne.
Qed.

Lemma is_list_self_loop (h : next_fields) (l : nat) (ys : list nat) :
  h !! l = Some (Some l) → ¬ is_list h (Some l) ys.
Proof.
  intros Hloop. induction ys as [|a ys IH]; simpl; [done|].
  intros [[= <-] (nxt & Ha & Hys)]. rewrite Hloop in Ha.
  injection Ha as <-. by apply IH.
Qed.

(** X14: appending the node that is already the last one ties the list
    into a loop: its [next] field then points to itself, and following
    [next] from [first_ptr] never reaches NULL any more. *)
Theorem LIST_APPEND_last_again (h : next_fields) (l : nat)
    (first_ptr : option nat) (xs : list nat) :
  is_list h first_ptr xs →
  last xs = Some l →
  ∃ h' first',
    LIST_APPEND h l first_ptr (Some l) = (h', first', Some l) ∧
    h' !! l = Some (Some l) ∧
    ∀ ys, ¬ is_list h' first' ys.
Proof.
  intros Hl Hlast. apply last_Some in Hlast as [pre ->].
  pose proof (is_list_NoDup _ _ _ Hl) as Hnd.
  eexists _, _. split; [done|]. split; [by rewrite lookup_insert_eq|].
  revert first_ptr Hl Hnd.
  induction pre as [|a pre IH]; intros first_ptr Hl Hnd ys Hys.
  - destruct Hl as [-> _].
    by apply (is_list_self_loop _ l ys) in Hys; [|rewrite lookup_insert_eq].
  - destruct Hl as [-> (nxt & Ha & Hrest)].
    change (((a :: pre) ++ [l])%list) with (a :: (pre ++ [l]))%list in Hnd.
    apply NoDup_cons in Hnd as [Hal Hnd].
    destruct ys as [|b ys]; [done|].
    destruct Hys as [[= <-] (nxt' & Ha' & Hys)].
    rewrite !lookup_insert_ne in Ha' by (intros ->; apply Hal; set_solver).
    rewrite Ha in Ha'. injection Ha' as <-. by apply (IH nxt Hrest Hnd ys).
Qed.


(** * The further statements at concrete inputs *)

Lemma scenario_table_ok : registry_ok scenario_table scenario_names.
Proof.
  split; [reflexivity|..]; apply (bool_decide_unpack _); by vm_compute.
Qed.

Lemma get_device_first_match_witness :
  ∃ r s',
    get_device device_list (init_state PASS_1) (Some "atmega328p")
      = Some (r, s') ∧
    match r with
    | None =>
        LastDevice s' = 0 ∧ defines_device_vars (pi s') 0 default_device ∧
        Forall (λ dn, nocase_strcmp "atmega328p" dn ≠ 0%Z)
          (drop 1 device_list_names)
    | Some i =>
        LastDevice s' = i ∧
        ∃ k n D, i = S k ∧ drop 1 device_list_names !! k = Some n ∧
          device_list !! i = Some D ∧ name D = Some n ∧
          nocase_strcmp "atmega328p" n = 0%Z ∧
          (∀ j m, j < k → drop 1 device_list_names !! j = Some m →
             nocase_strcmp "atmega328p" m ≠ 0%Z) ∧
          defines_device_vars (pi s') i D
    end.
Proof.
  apply (get_device_first_match device_list (drop 1 device_list_names)
           (init_state PASS_1) default_device "atmega328p");
    reflexivity.
Defined.

Lemma get_device_frame_witness :
  constants (pi selected_attiny85) = ∅ ∧
  pass (pi selected_attiny85) = PASS_1 ∧
  stderr selected_attiny85 = [] ∧
  (∀ x, ¬ is_device_var x →
     variables (pi selected_attiny85) !! x = (∅ : gmap string Z) !! x) ∧
  is_Some (scenario_table !! LastDevice selected_attiny85).
Proof.
  apply (get_device_frame scenario_table (init_state PASS_1)
           selected_attiny85 (Some "attiny85") (Some 1)).
  vm_compute. reflexivity.
Defined.

Lemma get_device_forgets_witness :
  get_device scenario_table selected_attiny85 None
    = get_device scenario_table (init_state PASS_1) None.
Proof.
  apply (get_device_forgets scenario_table (init_state PASS_1)
           selected_attiny85 (Some "attiny85") None (Some 1)).
  vm_compute. reflexivity.
Defined.

Lemma after_end_mark_ignored_witness :
  (∀ s q, get_device (scenario_table ++ [attiny85]) s q
            = get_device scenario_table s q) ∧
  (∀ s, LastDevice s < length scenario_table →
     predef_dev (scenario_table ++ [attiny85]) s
       = predef_dev scenario_table s) ∧
  (∀ count, list_devices count (scenario_table ++ [attiny85])
              = list_devices count scenario_table).
Proof.
  apply (after_end_mark_ignored scenario_table [attiny85]
           ["ATtiny85"; "ATmega328P"]).
  reflexivity.
Defined.

Lemma predef_dev_effects_witness :
  ∃ r s', predef_dev device_list (init_state PASS_1) = Some (r, s') ∧
    (∀ x v, (∅ : gmap string Z) !! x = Some v →
       constants (pi s') !! x = Some v) ∧
    pass (pi s') = PASS_1 ∧
    LastDevice s' = 0 ∧
    (r = true → stderr s' = []) ∧
    (stderr s' = [] ∨ ∃ m, stderr s' = ([] ++ [m])%list).
Proof.
  apply (predef_dev_effects device_list device_list_names
           (init_state PASS_1) default_device).
  - reflexivity.
  - apply device_list_fits.
  - reflexivity.
Defined.

Lemma predef_dev_pass2_iff_witness :
  ∃ r s', predef_dev device_list (init_state PASS_2) = Some (r, s') ∧
    constants (pi s') = ∅ ∧
    (r = true ↔
       ∀ k b, device_list_names !! k = Some b →
         (∅ : gmap string Z) !! symbol_spec b = Some (Z.of_nat k)) ∧
    (r = false → ∃ m, stderr s' = ([] ++ [m])%list).
Proof.
  apply (predef_dev_pass2_iff device_list device_list_names
           (init_state PASS_2) default_device).
  - reflexivity.
  - apply device_list_fits.
  - reflexivity.
  - reflexivity.
Defined.

Lemma predef_dev_pass1_iff_witness :
  ∃ r s', predef_dev device_list (init_state PASS_1) = Some (r, s') ∧
    (r = true ↔
       ∀ b, b ∈ device_list_names →
         (∅ : gmap string Z) !! symbol_spec b = None ∧
         (∅ : gmap string Z) !! symbol_spec b = None).
Proof.
  apply (predef_dev_pass1_iff device_list device_list_names
           (init_state PASS_1) default_device).
  - apply device_list_ok.
  - reflexivity.
  - reflexivity.
Defined.

Lemma predef_dev_pass1_no_rollback_witness :
  ∃ s', predef_dev scenario_table taken_attiny85 = Some (false, s') ∧
    (∀ j c, j < 1 → scenario_names !! j = Some c →
       constants (pi s') !! symbol_spec c = Some (Z.of_nat j)) ∧
    (∀ x, (∀ j c, j < 1 → scenario_names !! j = Some c →
             symbol_spec c ≠ x) →
       constants (pi s') !! x = constants (pi taken_attiny85) !! x).
Proof.
  apply (predef_dev_pass1_no_rollback scenario_table scenario_names
           taken_attiny85 default_device 1 "ATtiny85").
  - apply scenario_table_ok.
  - reflexivity.
  - reflexivity.
  - reflexivity.
  - intros [|j] c Hj Hc; [|lia]. injection Hc as <-. split; reflexivity.
  - left. exists 9%Z. reflexivity.
Defined.

Lemma predef_dev_detects_table_change_witness :
  ∃ s1 r2 s2,
    predef_dev scenario_table (init_state PASS_1) = Some (true, s1) ∧
    predef_dev scenario_table_swapped (set_pass s1 PASS_2) = Some (r2, s2) ∧
    (r2 = true ↔
       ∀ k b, [DEF_DEV_NAME; "ATmega328P"; "ATtiny85"] !! k = Some b →
         scenario_names !! k = Some b) ∧
    (∀ k b, [DEF_DEV_NAME; "ATmega328P"; "ATtiny85"] !! k = Some b →
       scenario_names !! k ≠ Some b →
       (∀ j c, j < k →
          [DEF_DEV_NAME; "ATmega328P"; "ATtiny85"] !! j = Some c →
          scenario_names !! j = Some c) →
       r2 = false ∧
       (∀ j, scenario_names !! j = Some b →
          stderr s2 = ([] ++ [ConstantChanged (symbol_spec b)
                                (Z.of_nat j) (Z.of_nat k)])%list) ∧
       (b ∉ scenario_names →
          stderr s2 = ([] ++ [ConstantMissing (symbol_spec b)])%list)).
Proof.
  apply (predef_dev_detects_table_change scenario_table
           scenario_table_swapped scenario_names
           [DEF_DEV_NAME; "ATmega328P"; "ATtiny85"]
           (init_state PASS_1) default_device default_device).
  - apply scenario_table_ok.
  - reflexivity.
  - apply (bool_decide_unpack _). vm_compute. reflexivity.
  - reflexivity.
  - reflexivity.
  - reflexivity.
  - intros b _. split; reflexivity.
  - intros b _. reflexivity.
Defined.

Lemma predef_dev_selection_between_passes_witness :
  ∃ s1, predef_dev device_list (init_state PASS_1) = Some (true, s1) ∧
    ∀ q r s1', get_device device_list s1 q = Some (r, s1') →
      ∃ s2 D,
        predef_dev device_list (set_pass s1' PASS_2) = Some (true, s2) ∧
        stderr s2 = [] ∧
        LastDevice s2 = LastDevice s1' ∧
        device_list !! LastDevice s1' = Some D ∧
        defines_device_vars (pi s2) (LastDevice s1') D.
Proof.
  apply (predef_dev_selection_between_passes device_list device_list_names
           (init_state PASS_1) default_device).
  - apply device_list_ok.
  - reflexivity.
  - reflexivity.
  - intros b _. split; reflexivity.
Defined.

Lemma dev_symbol_inj_witness :
  String.length "__ATtiny85__" ≤ MAX_DEV_NAME ∧
  (dev_symbol "attiny85" = Some "__ATtiny85__" → "attiny85" = "ATtiny85").
Proof.
  apply (dev_symbol_inj "ATtiny85" "attiny85" "__ATtiny85__"). reflexivity.
Defined.

Lemma list_devices_rows_witness :
  ∃ rows,
    list_devices (λ _, 137%Z) scenario_table
      = Some (print_default 4194304 96 8388608 65536 137 :: rows) ∧
    length rows = 2 ∧
    (∀ k n, ["ATtiny85"; "ATmega328P"] !! k = Some n →
       ∃ D, scenario_table !! S k = Some D ∧ name D = Some n ∧
         rows !! k = Some (print_device n (flash_size D) (ram_start D)
                             (ram_size D) (eeprom_size D) 137)) ∧
    (∀ s d,
       registry_ok scenario_table scenario_names →
       pass (pi s) = PASS_1 →
       scenario_table !! LastDevice s = Some d →
       (∀ b, b ∈ scenario_names →
          constants (pi s) !! symbol_spec b = None ∧
          variables (pi s) !! symbol_spec b = None) →
       ∃ s1, predef_dev scenario_table s = Some (true, s1) ∧
         (∀ k n f rs rz e c,
            rows !! k = Some (print_device n f rs rz e c) →
            constants (pi s1) !! symbol_spec n = Some (Z.of_nat (S k))) ∧
         (∀ x, constants (pi s1) !! x ≠ constants (pi s) !! x →
            x = symbol_spec DEF_DEV_NAME ∨
            ∃ k n f rs rz e c,
              rows !! k = Some (print_device n f rs rz e c) ∧
              x = symbol_spec n)).
Proof.
  apply (list_devices_rows (λ _, 137%Z) scenario_table
           ["ATtiny85"; "ATmega328P"] default_device);
    reflexivity.
Defined.

Lemma LIST_APPEND_appends_witness :
  ∃ h' first',
    LIST_APPEND two_nodes 3 (Some 1) (Some 2) = (h', first', Some 3) ∧
    is_list h' first' [1; 2; 3] ∧
    last [1; 2; 3] = Some 3 ∧
    first' = Some 1 ∧
    ∀ a, a ∉ [1; 2] → a ≠ 3 → h' !! a = two_nodes !! a.
Proof.
  apply (LIST_APPEND_appends two_nodes 3 (Some 1) (Some 2) [1; 2]).
  - split; [reflexivity|]. exists (Some 2). split; [reflexivity|].
    split; [reflexivity|]. exists None. split; reflexivity.
  - reflexivity.
  - apply (bool_decide_unpack _). vm_compute. reflexivity.
Defined.

Lemma LIST_APPEND_last_again_witness :
  ∃ h' first',
    LIST_APPEND two_nodes 2 (Some 1) (Some 2) = (h', first', Some 2) ∧
    h' !! 2 = Some (Some 2) ∧
    ∀ ys, ¬ is_list h' first' ys.
Proof.
  apply (LIST_APPEND_last_again two_nodes 2 (Some 1) [1; 2]).
  - split; [reflexivity|]. exists (Some 2). split; [reflexivity|].
    split; [reflexivity|]. exists None. split; reflexivity.
  - reflexivity.
Defined.

(** * Case of the name, and repeating pass 2 *)

Lemma get_device_scan_fold (f : ascii → ascii) (q : string)
    (tbl : list device) (i : nat) :
  (∀ c, tolower (f c) = tolower c) →
  get_device_scan (str_map f q) tbl i = get_device_scan q tbl i.
Proof.
  intros Hf. revert i. induction tbl as [|d tbl IH]; intros i; [done|].
  simpl. destruct (name d) as [dn|]; [|done].
  by rewrite (nocase_strcmp_map_l f q dn Hf), IH.
Qed.

(** X15: the case of the name asked for never matters.  On every table,
    in every session and for every name, [get_device] gives for the name
    in upper case and for the name in lower case exactly what it gives
    for the name as written: the same pointer and the same session. *)
Theorem get_device_any_case (dl : list device) (s : state) (q : string) :
  get_device dl s (Some (uppercase q)) = get_device dl s (Some q) ∧
  get_device dl s (Some (lowercase q)) = get_device dl s (Some q).
Proof.
  unfold get_device, uppercase, lowercase.
  by rewrite !get_device_scan_fold
    by (apply tolower_toupper || apply tolower_tolower).
Qed.

(** X16: pass 2 can be repeated.  When [predef_dev] returns [True] in pass
    2, the session it leaves is one on which it returns [True] again and
    which it leaves as it is. *)
Theorem predef_dev_pass2_again (dl : list device) (bases : list string)
    (s s' : state) (d : device) :
  predef_names dl = Some bases →
  Forall fits bases →
  pass (pi s) = PASS_2 →
  dl !! LastDevice s = Some d →
  predef_dev dl s = Some (true, s') →
  predef_dev dl s' = Some (true, s').
Proof.
  intros Hnames Hfit Hpass Hd Hrun.
  rewrite (predef_dev_run dl bases s d Hnames Hd) in Hrun.
  pose (s0 := set_pi s (dev_vars (pi s) (LastDevice s) d)). fold s0 in Hrun.
  destruct (predef_run_pass2_cases bases 0 s0 Hpass Hfit)
    as [[Hrun0 Hall]|(k & b & m & _ & _ & Hrun0)];
    rewrite Hrun0 in Hrun; [|done].
  injection Hrun as <-.
  rewrite (predef_dev_pass2_ok dl bases s0 d); [|done..].
  unfold s0, set_pi. simpl. by rewrite dev_vars_twice.
Qed.

Lemma predef_dev_pass2_again_witness :
  predef_dev scenario_table
    (set_pi checked_scenario (dev_vars (pi checked_scenario) 0 default_device))
  = Some (true,
      set_pi checked_scenario
        (dev_vars (pi checked_scenario) 0 default_device)).
Proof.
  apply (predef_dev_pass2_again scenario_table scenario_names
           checked_scenario
           (set_pi checked_scenario
              (dev_vars (pi checked_scenario) 0 default_device))
           default_device).
  - reflexivity.
  - apply (bool_decide_unpack _). vm_compute. reflexivity.
  - reflexivity.
  - reflexivity.
  - vm_compute. reflexivity.
Defined.

(** The devices of the scenario exchanged between the passes: pass 2 stops
    at entry 1 with line 227, old index 2, new index 1. *)
Example scenario_swapped :
  ∃ s1 s2,
    predef_dev scenario_table (init_state PASS_1) = Some (true, s1) ∧
    predef_dev scenario_table_swapped (set_pass s1 PASS_2) = Some (false, s2) ∧
    stderr s2 = [ConstantChanged "__ATmega328P__" 2 1].
Proof. do 2 eexists. split_and!; by vm_compute. Qed.

(** A name of 40 characters: the calls copy its first 32. *)
Example scenario_cut_name :
  dev_symbol_chars "0123456789012345678901234567890123456789"
    = "__01234567890123456789012345678901__".
Proof. reflexivity. Qed.
